(** * GPT-2 training orchestration: a shallow embedding of [gpt_model.py]
    and [train_gpt2.py]

    The data feeder, the start-up configuration check, the micro-step
    accumulation loop, the learning-rate schedule, the benchmark scorer
    and the shape discipline of [GPT.forward] are transcribed from the
    Python source.  Python exceptions are values of [exn]; a Python
    function that may raise returns a [result].  Python [int]s that are
    sizes, ranks or positions are [nat]; token ids and the quantities of
    the configuration check are [Z]; Python [float]s are idealised as the
    real numbers of the Standard Library (rounding is not modelled). *)

From Stdlib Require Import ZArith Lia String Ascii Reals Lra.
From stdpp Require Import base list strings gmap.

Set Default Proof Using "Type".
Local Open Scope nat_scope.

(** ** Python exceptions and fallible computations *)

Module Py.

Inductive exn : Type :=
| AssertionError
| TypeError
| IndexError
| RuntimeError
| ValueError
| ZeroDivisionError
| FileNotFoundError.

Inductive result (A : Type) : Type :=
| Ok (a : A)
| Raise (e : exn).
Arguments Ok {A} a.
Arguments Raise {A} e.

#[global] Instance result_ret : MRet result := fun A a => Ok a.
#[global] Instance result_bind : MBind result := fun A B k m =>
  match m with
  | Ok a => k a
  | Raise e => Raise e
  end.

(** [assert c] *)
Definition assert (c : bool) : result unit :=
  if c then Ok tt else Raise AssertionError.

(** [l[i]] for a non-negative index. *)
Definition getitem {A} (l : list A) (i : nat) : result A :=
  match l !! i with
  | Some a => Ok a
  | None => Raise IndexError
  end.

(** [l[a:b]] for non-negative bounds: Python clamps both to [len(l)]. *)
Definition slice {A} (l : list A) (a b : nat) : list A :=
  take (b - a) (drop a l).

(** [l[:-1]] *)
Definition but_last {A} (l : list A) : list A :=
  take (length l - 1) l.

(** [l[1:]] *)
Definition from_1 {A} (l : list A) : list A :=
  drop 1 l.

(** Values a Python name can be bound to, as far as the feeder's
    constructor looks at them. *)
Inductive pyval : Type :=
| PyInt (z : Z)
| PyStr (s : string)
| PyFunction (qualname : string).

End Py.

Import Py.

(** ** Tensors of rank one and two, as the feeder uses them *)

Module Tensor.

(** [n] successive rows of width [w] cut from a flat buffer. *)
Fixpoint rows {A} (w n : nat) (l : list A) : list (list A) :=
  match n with
  | O => []
  | S n' => take w l :: rows w n' (drop w l)
  end.

(** [buf.view(B, T)] on a one-dimensional tensor: the element count must
    be [B * T]. *)
Definition view {A} (l : list A) (B T : nat) : result (list (list A)) :=
  if length l =? B * T then Ok (rows T B l) else Raise RuntimeError.

(** A nested list is a tensor of shape [(B, T)]. *)
Definition has_shape {A} (x : list (list A)) (B T : nat) : Prop :=
  length x = B /\ Forall (fun r => length r = T) x.

(** [x[i][j]] *)
Definition at2 {A} (x : list (list A)) (i j : nat) : option A :=
  x !! i ≫= (.!! j).

End Tensor.

(** ** The sharded sequential data feeder: [class DataLoaderLite] *)

Module DataLoaderLite.

(** [sub in s] on two strings. *)
Fixpoint contains (sub s : string) : bool :=
  String.prefix sub s ||
  match s with
  | EmptyString => false
  | String _ s' => contains sub s'
  end.

(** [x in {'train', 'val'}]: a value that is not a string equals neither
    element of the set. *)
Definition in_str_set (x : pyval) (set : list string) : bool :=
  match x with
  | PyStr s => bool_decide (s ∈ set)
  | _ => false
  end.

(** [x in s] with [s] a string: Python raises [TypeError] unless the left
    operand is a string. *)
Definition in_str (x : pyval) (s : string) : result bool :=
  match x with
  | PyStr sub => Ok (contains sub s)
  | _ => Raise TypeError
  end.

(** [[s for s in names if split in s]] *)
Fixpoint names_with (split : pyval) (names : list string)
  : result (list string) :=
  match names with
  | [] => Ok []
  | s :: rest =>
      b ← in_str split s;
      keep ← names_with split rest;
      Ok (if b : bool then s :: keep else keep)
  end.

(** [sorted(names)]: ascending by code point. *)
Fixpoint insert_sorted (s : string) (l : list string) : list string :=
  match l with
  | [] => [s]
  | h :: t => if String.leb s h then s :: l else h :: insert_sorted s t
  end.
Definition sorted (l : list string) : list string :=
  foldr insert_sorted [] l.

(** [os.path.join(root, s)] *)
Definition path_join (root s : string) : string :=
  (root ++ "/" ++ s)%string.

Definition data_root : string := "edu_fineweb10B".

(** The instance attributes. *)
Record t : Type := mk {
  B : nat;
  T : nat;
  process_rank : nat;
  num_processes : nat;
  shards : list string;
  current_shard : nat;
  tokens : list Z;
  current_position : nat
}.

(** The name [split] is not a parameter of [__init__]; inside the
    constructor it resolves to the module global bound by
    [from numpy import split]. *)
Definition split : pyval := PyFunction "numpy.split".

Section WithFiles.

(** The storage the feeder reads: [os.listdir] and [np.load]. *)
Variable os_listdir : string -> result (list string).
Variable np_load : string -> result (list Z).

(** [load_tokens]: the array of the file as a [torch.long] tensor. *)
Definition load_tokens (filename : string) : result (list Z) :=
  np_load filename.

(** [reset] *)
Definition reset (self : t) : result t :=
  let current_shard := 0 in
  filename ← getitem (shards self) current_shard;
  tokens ← load_tokens filename;
  Ok (mk (B self) (T self) (process_rank self) (num_processes self)
         (shards self) current_shard tokens
         (B self * T self * process_rank self)).

(** Lines 254-257 of [next_batch]: the window and its two views. *)
Definition window (self : t) : list Z :=
  slice (tokens self) (current_position self)
        (current_position self + B self * T self + 1).

Definition batch (self : t) : result (list (list Z) * list (list Z)) :=
  let buf := window self in
  x ← Tensor.view (but_last buf) (B self) (T self);
  y ← Tensor.view (from_1 buf) (B self) (T self);
  Ok (x, y).

(** Lines 260-265 of [next_batch]: advance, then wrap when the batch
    after this one would not fit. *)
Definition advance (self : t) : result t :=
  let stride := B self * T self * num_processes self in
  let position := current_position self + stride in
  if length (tokens self) <? position + (stride + 1) then
    match length (shards self) with
    | O => Raise ZeroDivisionError
    | S _ =>
        let shard := (current_shard self + 1) mod length (shards self) in
        filename ← getitem (shards self) shard;
        tokens ← load_tokens filename;
        Ok (mk (B self) (T self) (process_rank self) (num_processes self)
               (shards self) shard tokens
               (B self * T self * process_rank self))
    end
  else
    Ok (mk (B self) (T self) (process_rank self) (num_processes self)
           (shards self) (current_shard self) (tokens self) position).

(** [next_batch]: the returned pair and the updated instance. *)
Definition next_batch (self : t)
  : result (list (list Z) * list (list Z) * t) :=
  xy ← batch self;
  self' ← advance self;
  Ok (xy, self').

(** The constructor body, with the value the name [split] is bound to
    made explicit.  The state attributes do not exist before [reset]
    runs; the placeholders below are overwritten by it. *)
Definition init (split : pyval) (B T process_rank num_processes : nat)
  : result t :=
  _ ← assert (in_str_set split ["train"; "val"]);
  names ← os_listdir data_root;
  names ← names_with split names;
  let shards := path_join data_root <$> sorted names in
  _ ← assert (0 <? length shards);
  reset (mk B T process_rank num_processes shards 0 [] 0).

(** [DataLoaderLite.__init__] as the module defines it. *)
Definition __init__ (B T process_rank num_processes : nat) : result t :=
  init split B T process_rank num_processes.

(** A call [DataLoaderLite(B=.., T=.., process_rank=.., num_processes=..,
    **extra)].  The parameters of [__init__] are [B], [T], [process_rank]
    and [num_processes]; any further keyword is either unexpected or a
    second value for one of them, and Python raises [TypeError] before
    the body runs. *)
Definition call (B T process_rank num_processes : nat)
    (extra : list (string * pyval)) : result t :=
  match extra with
  | [] => __init__ B T process_rank num_processes
  | _ :: _ => Raise TypeError
  end.

(** The outcomes of [k] successive [next_batch()] calls; the run stops
    at the first call that raises. *)
Fixpoint batches (k : nat) (self : t)
  : list (result (list (list Z) * list (list Z))) :=
  match k with
  | O => []
  | S k' =>
      match next_batch self with
      | Ok (xy, self') => Ok xy :: batches k' self'
      | Raise e => [Raise e]
      end
  end.

(** [reset()] followed by [k] calls of [next_batch()]. *)
Definition reset_then_batches (k : nat) (self : t)
  : result (list (result (list (list Z) * list (list Z)))) :=
  self' ← reset self;
  Ok (batches k self').

(** The instance after [k] successful calls. *)
Fixpoint after (k : nat) (self : t) : result t :=
  match k with
  | O => Ok self
  | S k' => '(_, self') ← next_batch self; after k' self'
  end.

End WithFiles.

End DataLoaderLite.

(** ** Arithmetic shared by the training script *)

Module Num.

(** [a % b] on Python integers: the sign follows the divisor, as
    [Z.modulo] does; a zero divisor raises. *)
Definition mod_ (a b : Z) : result Z :=
  if (b =? 0)%Z then Raise ZeroDivisionError else Ok (a mod b)%Z.

(** [a // b] on Python integers: rounds towards minus infinity, as [Z.div]
    does; a zero divisor raises. *)
Definition floordiv (a b : Z) : result Z :=
  if (b =? 0)%Z then Raise ZeroDivisionError else Ok (a / b)%Z.

(** [a / b] on Python numbers, over the reals; a zero divisor raises. *)
Definition truediv (a b : R) : result R :=
  if Req_dec_T b 0 then Raise ZeroDivisionError else Ok (a / b)%R.

(** [a <= b] on reals, as a boolean. *)
Definition Rleb (a b : R) : bool :=
  if Rle_dec a b then true else false.

(** [a < b] on reals, as a boolean. *)
Definition Rltb (a b : R) : bool :=
  if Rlt_dec a b then true else false.

(** [range(n)] *)
Definition range (n : Z) : list Z :=
  Z.of_nat <$> seq 0 (Z.to_nat n).

(** [sum] of a list of reals. *)
Definition Rsum (l : list R) : R :=
  foldr Rplus 0%R l.

(** [sum] of a list of integers. *)
Definition Zsum (l : list Z) : Z :=
  foldr Z.add 0%Z l.

End Num.

(** ** The learning-rate schedule: [get_lr] *)

Module Schedule.

Local Open Scope R_scope.

Section WithConstants.

(** The module-level constants the function reads. *)
Variable max_lr : R.
Variable warmup_steps max_steps : Z.

Definition min_lr : R := max_lr * 0.1.

(** [decay_ratio] of step [it]. *)
Definition decay_ratio (it : Z) : result R :=
  Num.truediv (IZR (it - warmup_steps)) (IZR (max_steps - warmup_steps)).

(** [coeff] and the returned value of the cosine phase. *)
Definition cosine (decay_ratio : R) : R :=
  let coeff := 0.5 * (1.0 + cos (PI * decay_ratio)) in
  min_lr + coeff * (max_lr - min_lr).

(** The last three lines of [get_lr], from the assertion on. *)
Definition cosine_phase (decay_ratio : R) : result R :=
  _ ← assert (Num.Rleb 0 decay_ratio && Num.Rleb decay_ratio 1);
  Ok (cosine decay_ratio).

Definition get_lr (it : Z) : result R :=
  if (it <? warmup_steps)%Z then
    Num.truediv (max_lr * IZR (it + 1)) (IZR warmup_steps)
  else if (max_steps <? it)%Z then
    Ok min_lr
  else
    decay_ratio ← decay_ratio it;
    cosine_phase decay_ratio.

End WithConstants.

(** The constants of [gpt_model.py]. *)
Definition max_lr : R := 6e-4.
Definition warmup_steps : Z := 715.
Definition max_steps : Z := 19073 * 4.

End Schedule.

(** ** Start-up configuration and the accumulation window of a step *)

Module Train.

(** Lines 336-342: the divisibility assertion and [grad_accum_steps]. *)
Definition grad_accum_steps (total_batch_size B T ddp_world_size : Z)
  : result Z :=
  r ← Num.mod_ total_batch_size (B * T * ddp_world_size);
  _ ← assert (r =? 0)%Z;
  Num.floordiv total_batch_size (B * T * ddp_world_size).

(** The constants of [gpt_model.py]. *)
Definition total_batch_size : Z := 524288.
Definition B : Z := 64.
Definition T : Z := 1024.

(** The attributes of the wrapped model that the loop writes or that
    [backward] reads.  [torch.nn.parallel.DistributedDataParallel] sets
    [require_backward_grad_sync = True] when it is constructed, and a
    backward pass through it all-reduces the gradients exactly when that
    attribute is true; assigning to any other attribute name stores a new
    attribute on the module object. *)
Definition DDP : gmap string bool :=
  {[ "require_backward_grad_sync"%string := true ]}.

(** Whether [loss.backward()] runs the collective gradient reduction. *)
Definition backward_syncs (ddp : bool) (model : gmap string bool) : bool :=
  ddp && default false (model !! "require_backward_grad_sync"%string).

(** One [loss.backward()] call: the micro-step, the loss it
    differentiates, the attributes of the model at that moment and
    whether the gradients were all-reduced. *)
Record backward_event : Type := mk_event {
  ev_micro_step : Z;
  ev_loss : R;
  ev_model : gmap string bool;
  ev_synced : bool
}.

(** The variables the loop body updates. *)
Record window_state : Type := mk_state {
  loss_accum : R;
  model : gmap string bool;
  backward_log : list backward_event
}.

Section Window.

Variable ddp : bool.
Variable grad_accum_steps : Z.
(** The loss that [model(x, y)] returns at each micro-step. *)
Variable forward_loss : Z -> R.

(** Lines 502-515: the body of [for micro_step in range(grad_accum_steps)]. *)
Definition micro_step_body (st : window_state) (micro_step : Z)
  : window_state :=
  let loss := forward_loss micro_step in
  let loss := (loss / IZR grad_accum_steps)%R in
  let loss_accum := (loss_accum st + loss)%R in
  let model :=
    if ddp then
      <[ "required_backward_grad_sync"%string :=
           bool_decide (micro_step = grad_accum_steps - 1)%Z ]> (model st)
    else model st in
  mk_state loss_accum model
    (backward_log st
       ++ [mk_event micro_step loss model (backward_syncs ddp model)]).

(** Lines 500-515: [loss_accum = 0.0] and the loop. *)
Definition accumulate (model : gmap string bool) : window_state :=
  foldl micro_step_body (mk_state 0%R model [])
        (Num.range grad_accum_steps).

End Window.

End Train.

(** ** The benchmark scorer: [get_most_likely_row] *)

Module HellaSwag.

Local Open Scope R_scope.

(** [F.cross_entropy] of one vector of class scores against one target
    class: minus the log-softmax at the target.  The default
    [ignore_index] of -100 gives a zero loss; any other target outside
    the classes is an error. *)
Definition nll (scores : list R) (class : nat) : R :=
  ln (Num.Rsum (exp <$> scores)) - nth class scores 0.

Definition cross_entropy_at (scores : list R) (target : Z) : result R :=
  if (target =? -100)%Z then Ok 0
  else if (0 <=? target)%Z && (target <? Z.of_nat (length scores))%Z
       then Ok (nll scores (Z.to_nat target))
       else Raise IndexError.

(** [F.cross_entropy(input, target, reduction='none')] with [input] of
    shape (N, V) and [target] of shape (N). *)
Fixpoint cross_entropy (input : list (list R)) (target : list Z)
  : result (list R) :=
  match input, target with
  | [], [] => Ok []
  | scores :: input', t :: target' =>
      l ← cross_entropy_at scores t;
      rest ← cross_entropy input' target';
      Ok (l :: rest)
  | _, _ => Raise ValueError
  end.

(** [flat.view(n, -1)]: [n] rows, the width inferred from the element
    count; with no element the width cannot be inferred. *)
Definition view_rows {A} (flat : list A) (n : nat) : result (list (list A)) :=
  if (n =? 0)%nat then Raise RuntimeError
  else if (length flat =? 0)%nat then Raise RuntimeError
  else if (length flat mod n =? 0)%nat
       then Ok (Tensor.rows (length flat / n) n flat)
       else Raise RuntimeError.

(** [t.argmin().item()]: the index of the first minimal value; an empty
    tensor is an error. *)
Fixpoint argmin_from (best : R) (best_index index : nat) (l : list R) : nat :=
  match l with
  | [] => best_index
  | v :: l' =>
      if Num.Rltb v best
      then argmin_from v index (S index) l'
      else argmin_from best best_index (S index) l'
  end.

Definition argmin (l : list R) : result nat :=
  match l with
  | [] => Raise RuntimeError
  | v :: l' => Ok (argmin_from v 0%nat 1%nat l')
  end.

(** Lines 274-285: the per-row average loss over the completion region.
    [tokens] and [mask] have shape (rows, T) and [logits] has shape
    (rows, T, V); the element-wise product and quotient are taken on
    tensors of equal shape. *)
Definition avg_loss (tokens mask : list (list Z))
    (logits : list (list (list R))) : result (list R) :=
  let shift_logits := but_last <$> logits in
  let shift_tokens := from_1 <$> tokens in
  let flat_shift_logits := concat shift_logits in
  let flat_shift_tokens := concat shift_tokens in
  shift_losses ← cross_entropy flat_shift_logits flat_shift_tokens;
  shift_losses ← view_rows shift_losses (length tokens);
  let shift_mask := from_1 <$> mask in
  let masked_shift_losses :=
    zip_with (zip_with (fun l m => l * IZR m)) shift_losses shift_mask in
  let sum_loss := Num.Rsum <$> masked_shift_losses in
  Ok (zip_with Rdiv sum_loss ((fun m => IZR (Num.Zsum m)) <$> shift_mask)).

Definition get_most_likely_row (tokens mask : list (list Z))
    (logits : list (list (list R))) : result nat :=
  avg_loss ← avg_loss tokens mask logits;
  argmin avg_loss.

(** The same average written the way the specification words it, for one
    candidate row: position [t]'s scores are matched with token [t+1];
    the losses of the positions whose shifted mask is 1 are summed and
    the sum is divided by the number of ones. *)
Definition position_losses (toks : list Z) (scores : list (list R)) : list R :=
  zip_with (fun s tok => nll s (Z.to_nat tok)) (but_last scores) (from_1 toks).

Fixpoint sum_where_masked (losses : list R) (m : list Z) : R :=
  match losses, m with
  | l :: losses', b :: m' =>
      if (b =? 1)%Z then l + sum_where_masked losses' m'
      else sum_where_masked losses' m'
  | _, _ => 0
  end.

Definition count_ones (m : list Z) : nat :=
  length (filter (fun b => b = 1%Z) m).

Definition spec_average_loss (toks msk : list Z) (scores : list (list R)) : R :=
  sum_where_masked (position_losses toks scores) (from_1 msk)
  / INR (count_ones (from_1 msk)).

Definition spec_average_losses (tokens mask : list (list Z))
    (logits : list (list (list R))) : list R :=
  (fun '(toks, msk, scores) => spec_average_loss toks msk scores)
    <$> zip (zip tokens mask) logits.

(** A rendered benchmark example: at least one candidate row; [tokens],
    [mask] and [logits] have the same rows and the same width; every
    token that is scored is a class of the scores it is matched with; the
    mask holds zeros and ones, with at least one 1 after the first
    position of each row (the completion is not empty). *)
Definition valid_target (scores : list R) (tok : Z) : Prop :=
  (0 <= tok < Z.of_nat (length scores))%Z.

Definition binary (b : Z) : Prop := b = 0%Z \/ b = 1%Z.

Record rendered (tokens mask : list (list Z))
    (logits : list (list (list R))) : Prop := mk_rendered {
  some_row : tokens <> [];
  mask_rows : length mask = length tokens;
  logits_rows : length logits = length tokens;
  same_width : exists T : nat,
    Forall (fun r => length r = T) tokens /\
    Forall (fun r => length r = T) mask /\
    Forall (fun r => length r = T) logits;
  tokens_are_classes :
    Forall2 (fun toks scores =>
               Forall2 valid_target (but_last scores) (from_1 toks))
            tokens logits;
  mask_is_binary :
    Forall (Forall binary) mask;
  completion_not_empty :
    Forall (fun msk => (0 < count_ones (from_1 msk))%nat) mask
}.

End HellaSwag.

(** ** The shapes of [GPT.forward]

    Integer tensors (token ids, positions) carry their values, because
    embedding look-ups check them; floating-point tensors are followed by
    shape only, each torch operation being replaced by its shape
    contract. *)

Module GPT.

Definition shape : Type := list nat.

Record IntTensor : Type := mk_int {
  dims : shape;
  values : list Z
}.

(** [@dataclass class GPTConfig] *)
Record GPTConfig : Type := mk_config {
  block_size : nat;
  vocab_size : nat;
  n_layer : nat;
  n_head : nat;
  n_embd : nat
}.

Definition default_config : GPTConfig := mk_config 1024 50257 12 12 768.

Definition numel (s : shape) : nat := foldr Nat.mul 1 s.

(** [torch.arange(0, T)] *)
Definition arange (T : nat) : IntTensor :=
  mk_int [T] (Z.of_nat <$> seq 0 T).

(** [nn.Embedding(num, dim)(idx)]: every index must lie in [0, num). *)
Definition embedding (num dim : nat) (idx : IntTensor) : result shape :=
  if forallb (fun v => (0 <=? v)%Z && (v <? Z.of_nat num)%Z) (values idx)
  then Ok (dims idx ++ [dim])
  else Raise IndexError.

(** [nn.Linear(fan_in, fan_out)(x)]: the last dimension must be [fan_in]. *)
Definition linear (fan_in fan_out : nat) (x : shape) : result shape :=
  match last x with
  | Some d => if d =? fan_in then Ok (but_last x ++ [fan_out])
              else Raise RuntimeError
  | None => Raise RuntimeError
  end.

(** [nn.LayerNorm(width)(x)]: the last dimension must be [width]. *)
Definition layer_norm (width : nat) (x : shape) : result shape :=
  match last x with
  | Some d => if d =? width then Ok x else Raise RuntimeError
  | None => Raise RuntimeError
  end.

(** Broadcasting of two shapes, aligned at the last dimension. *)
Fixpoint broadcast_rev (a b : shape) : result shape :=
  match a, b with
  | [], _ => Ok b
  | _, [] => Ok a
  | x :: a', y :: b' =>
      d ← (if x =? y then Ok x
           else if x =? 1 then Ok y
           else if y =? 1 then Ok x
           else Raise RuntimeError);
      r ← broadcast_rev a' b';
      Ok (d :: r)
  end.

Definition broadcast (a b : shape) : result shape :=
  r ← broadcast_rev (reverse a) (reverse b);
  Ok (reverse r).

(** [x.view(d0, d1, ...)]: the element counts must agree. *)
Definition view (x new : shape) : result shape :=
  if numel x =? numel new then Ok new else Raise RuntimeError.

(** [x.transpose(i, j)] for in-range non-negative dimensions. *)
Definition transpose (i j : nat) (x : shape) : result shape :=
  match x !! i, x !! j with
  | Some di, Some dj => Ok (<[i := dj]> (<[j := di]> x))
  | _, _ => Raise IndexError
  end.

(** [x.transpose(-2, -1)] *)
Definition transpose_last2 (x : shape) : result shape :=
  if 2 <=? length x
  then transpose (length x - 2) (length x - 1) x
  else Raise IndexError.

(** [x.split(size, dim=d)]: the shapes of the chunks. *)
Definition split (size d : nat) (x : shape) : result (list shape) :=
  match x !! d with
  | None => Raise IndexError
  | Some n =>
      if size =? 0 then
        if n =? 0 then Ok [x] else Raise RuntimeError
      else
        Ok ((fun k => <[d := Nat.min size (n - k * size)]> x)
              <$> seq 0 (Nat.max 1 ((n + size - 1) / size)))
  end.

(** [a, b, c = chunks] *)
Definition unpack3 {A} (l : list A) : result (A * A * A) :=
  match l with
  | [a; b; c] => Ok (a, b, c)
  | _ => Raise ValueError
  end.

(** [a, b = x.size()] *)
Definition unpack2 {A} (l : list A) : result (A * A) :=
  match l with
  | [a; b] => Ok (a, b)
  | _ => Raise ValueError
  end.

(** [a @ b] on tensors of rank four with equal batch dimensions. *)
Definition matmul (a b : shape) : result shape :=
  match a, b with
  | [a0; a1; n; m], [b0; b1; m'; p] =>
      if (a0 =? b0) && (a1 =? b1) && (m =? m')
      then Ok [a0; a1; n; p] else Raise RuntimeError
  | _, _ => Raise RuntimeError
  end.

(** [att.masked_fill(mask, value)]: the mask must broadcast to [att]. *)
Definition masked_fill (att mask : shape) : result shape :=
  r ← broadcast att mask;
  if bool_decide (r = att) then Ok att else Raise RuntimeError.

(** [F.scaled_dot_product_attention(q, k, v, is_causal=True)] *)
Definition scaled_dot_product_attention (q k v : shape) : result shape :=
  kt ← transpose_last2 k;
  att ← matmul q kt;
  matmul att v.

Section WithConfig.

Variable config : GPTConfig.

(** [CasualSelfAttention.__init__]: the assertion on the head count. *)
Definition attention_init : result unit :=
  r ← Num.mod_ (Z.of_nat (n_embd config)) (Z.of_nat (n_head config));
  assert (r =? 0)%Z.

(** [GPT.__init__]: one attention module per layer is constructed. *)
Definition init : result unit :=
  match n_layer config with
  | O => Ok tt
  | S _ => attention_init
  end.

(** The part of [CasualSelfAttention.forward] the two files share: the
    projections and the three per-head views. *)
Definition heads (x : shape) : result (nat * nat * nat * shape * shape * shape) :=
  match x with
  | [B; T; C] =>
      qkv ← linear (n_embd config) (3 * n_embd config) x;
      chunks ← split (n_embd config) 2 qkv;
      '(q, k, v) ← unpack3 chunks;
      if n_head config =? 0 then Raise ZeroDivisionError else
      let hs := C / n_head config in
      k ← view k [B; T; n_head config; hs];
      k ← transpose 1 2 k;
      q ← view q [B; T; n_head config; hs];
      q ← transpose 1 2 q;
      v ← view v [B; T; n_head config; hs];
      v ← transpose 1 2 v;
      Ok (B, T, C, q, k, v)
  | _ => Raise ValueError
  end.

(** [att = (q @ k.transpose(-2, -1)) * (1.0 / math.sqrt(k.size(-1)))] *)
Definition scores (q k : shape) : result shape :=
  kt ← transpose_last2 k;
  att ← matmul q kt;
  match last k with
  | Some O => Raise ZeroDivisionError
  | Some (S _) => Ok att
  | None => Raise IndexError
  end.

(** [y.transpose(1, 2).contiguous().view(B, T, C)] and [c_proj]. *)
Definition merge_heads (B T C : nat) (y : shape) : result shape :=
  y ← transpose 1 2 y;
  y ← view y [B; T; C];
  linear (n_embd config) (n_embd config) y.

(** [CasualSelfAttention.forward] of [gpt_model.py]. *)
Definition attention (x : shape) : result shape :=
  '(B, T, C, q, k, v) ← heads x;
  _ ← scores q k;
  y ← scaled_dot_product_attention q k v;
  merge_heads B T C y.

(** [CasualSelfAttention.forward] of [train_gpt2.py]: the causal mask
    is the buffer [bias] cut to [:T, :T]. *)
Definition attention_masked (x : shape) : result shape :=
  '(B, T, C, q, k, v) ← heads x;
  att ← scores q k;
  let mask := [1; 1; Nat.min T (block_size config);
               Nat.min T (block_size config)] in
  att ← masked_fill att mask;
  y ← matmul att v;
  merge_heads B T C y.

(** [MLP.forward] *)
Definition mlp (x : shape) : result shape :=
  x ← linear (n_embd config) (4 * n_embd config) x;
  linear (4 * n_embd config) (n_embd config) x.

(** [Block.forward], over either attention. *)
Definition block (attn : shape -> result shape) (x : shape) : result shape :=
  h ← layer_norm (n_embd config) x;
  a ← attn h;
  x ← broadcast x a;
  h ← layer_norm (n_embd config) x;
  m ← mlp h;
  broadcast x m.

(** [for block in self.transformer.h: x = block(x)] *)
Fixpoint blocks (attn : shape -> result shape) (n : nat) (x : shape)
  : result shape :=
  match n with
  | O => Ok x
  | S n' => x ← block attn x; blocks attn n' x
  end.

(** The body both [forward] methods share, up to [logits]. *)
Definition logits_of (attn : shape -> result shape) (idx : IntTensor)
  : result shape :=
  '(B, T) ← unpack2 (dims idx);
  _ ← assert (T <=? block_size config);
  let pos := arange T in
  pos_emb ← embedding (block_size config) (n_embd config) pos;
  tok_emb ← embedding (vocab_size config) (n_embd config) idx;
  x ← broadcast tok_emb pos_emb;
  x ← blocks attn (n_layer config) x;
  x ← layer_norm (n_embd config) x;
  linear (n_embd config) (vocab_size config) x.

(** [F.cross_entropy(logits.view(-1, V), targets.view(-1))]: a scalar. *)
Definition loss_of (logits : shape) (targets : IntTensor) : result shape :=
  match last logits with
  | None => Raise IndexError
  | Some V =>
      if (V =? 0) || negb (numel logits mod V =? 0) then Raise RuntimeError
      else if negb (numel logits / V =? numel (dims targets))
      then Raise ValueError
      else if forallb (fun t => (t =? -100)%Z ||
                         ((0 <=? t)%Z && (t <? Z.of_nat V)%Z))
                      (values targets)
      then Ok []
      else Raise IndexError
  end.

(** [GPT.forward(idx, targets=None)] of [gpt_model.py]. *)
Definition forward (idx : IntTensor) (targets : option IntTensor)
  : result (shape * option shape) :=
  logits ← logits_of attention idx;
  match targets with
  | None => Ok (logits, None)
  | Some targets =>
      loss ← loss_of logits targets;
      Ok (logits, Some loss)
  end.

(** [GPT.forward(idx)] of [train_gpt2.py]. *)
Definition forward_train_gpt2 (idx : IntTensor) : result shape :=
  logits_of attention_masked idx.

End WithConfig.

End GPT.

(** ** A concrete corpus used to run the feeder *)

Module Example.

Import DataLoaderLite.

Definition train_names : list string :=
  ["train_0"; "train_1"; "train_2"; "train_3"; "train_4"; "train_5"].

Definition train_paths : list string :=
  path_join data_root <$> train_names.

(** Token [j] of shard [i] is [1000 * i + j]; every shard has 1000 tokens. *)
Definition shard_tokens (i : nat) : list Z :=
  (fun j => 1000 * Z.of_nat i + j)%Z <$> seqZ 0 1000.

Fixpoint position (p : string) (l : list string) : option nat :=
  match l with
  | [] => None
  | h :: t => if String.eqb p h then Some 0 else S <$> position p t
  end.

Definition np_load (path : string) : result (list Z) :=
  match position path train_paths with
  | Some i => Ok (shard_tokens i)
  | None => Raise FileNotFoundError
  end.

Definition os_listdir (root : string) : result (list string) :=
  if String.eqb root data_root
  then Ok ["train_3"; "val_0"; "train_1"; "train_0"; "train_5"; "train_2";
           "train_4"]
  else Raise FileNotFoundError.

(** [B=4, T=8, process_rank=0, num_processes=1] over the six shards. *)
Definition loader : t := mk 4 8 0 1 train_paths 0 [] 0.

(** A feeder of two processes over a long and a short shard. *)
Definition np_load_short (path : string) : result (list Z) :=
  if String.eqb path "long" then Ok [0; 1; 2; 3; 4; 5; 6; 7; 8]%Z
  else if String.eqb path "short" then Ok [10; 11; 12; 13]%Z
  else Raise FileNotFoundError.

Definition loader_short : t := mk 1 2 0 2 ["long"; "short"] 0 [] 0.

(** The flattened inputs [x] returned by the [k]-th call (counted from 1)
    after [reset()], and the instance that call leaves behind. *)
Definition call_tokens (k : nat) : result (list Z) :=
  self ← reset np_load loader;
  self ← after np_load (k - 1) self;
  '(x, _, _) ← next_batch np_load self;
  Ok (concat x).

Definition call_state (k : nat) : result (nat * nat) :=
  self ← reset np_load loader;
  self ← after np_load k self;
  Ok (current_shard self, current_position self).

End Example.

(** ** States of the feeder between calls *)

Module FeederState.

Import DataLoaderLite.

(** Two instances were constructed with the same arguments over the same
    shard list. *)
Definition same_config (a b : t) : Prop :=
  B a = B b /\ T a = T b /\ process_rank a = process_rank b /\
  num_processes a = num_processes b /\ shards a = shards b.

(** [B * T * num_processes]: what one call adds to the position. *)
Definition stride (self : t) : nat := B self * T self * num_processes self.

(** [B * T * process_rank]: where the rank starts in a shard. *)
Definition base (self : t) : nat := B self * T self * process_rank self.

(** The resident tokens are those of the current shard, which exists, and
    the position is the rank's base plus a whole number of strides. *)
Definition coherent (np_load : string -> result (list Z)) (self : t) : Prop :=
  current_shard self < length (shards self) /\
  (exists filename, shards self !! current_shard self = Some filename /\
                    np_load filename = Ok (tokens self)) /\
  exists j, current_position self = base self + j * stride self.

(** The window of the next call lies inside the resident shard. *)
Definition fits (self : t) : Prop :=
  current_position self + B self * T self + 1 <= length (tokens self).

(** Every shard file loads and holds at least one stride plus one token. *)
Definition long_shards (np_load : string -> result (list Z)) (self : t)
  : Prop :=
  Forall (fun filename =>
            exists toks, np_load filename = Ok toks /\
                         stride self + 1 <= length toks)
         (shards self).

End FeederState.

(** ** The model configurations of [GPT.from_pretrained] *)

Module Pretrained.

Import GPT.

Definition model_types : list string :=
  ["gpt2"; "gpt2-medium"; "gpt2-large"; "gpt2-xl"].

(** The first lines of [from_pretrained], up to [model = GPT(config)]:
    the assertion on [model_type], the table of [n_layer], [n_head] and
    [n_embd], the fixed vocabulary and block size, and the constructor.
    After the assertion the last branch of the table is ['gpt2-xl']. *)
Definition config_args (model_type : string) : nat * nat * nat :=
  if String.eqb model_type "gpt2" then (12, 12, 768)
  else if String.eqb model_type "gpt2-medium" then (24, 16, 1024)
  else if String.eqb model_type "gpt2-large" then (36, 20, 1280)
  else (48, 25, 1600).

Definition from_pretrained_config (model_type : string) : result GPTConfig :=
  _ ← assert (bool_decide (model_type ∈ model_types));
  let '(n_layer, n_head, n_embd) := config_args model_type in
  let config := mk_config 1024 50257 n_layer n_head n_embd in
  _ ← init config;
  Ok config.

End Pretrained.

(** ** The parameter groups of [GPT.configure_optimizers] *)

Module Optimizer.

(** A named parameter, as far as the grouping looks at it. *)
Record parameter : Type := mk_parameter {
  name : string;
  shape : list nat;
  requires_grad : bool
}.

(** [p.dim()] and [p.numel()] *)
Definition dim (p : parameter) : nat := length (shape p).
Definition numel (p : parameter) : nat := GPT.numel (shape p).

Record param_group : Type := mk_group {
  params : list parameter;
  weight_decay : R
}.

(** What the method builds and prints: the two groups handed to
    [AdamW], the two parameter counts and the [fused] flag. *)
Record configured : Type := mk_configured {
  optim_groups : list param_group;
  num_decay_params : nat;
  num_nodecay_params : nat;
  use_fused : bool
}.

(** [named_parameters()] yields each parameter once under its own name,
    so the two dictionaries of the method are this list, in order;
    [fused_available] is whether [AdamW] accepts the keyword [fused]. *)
Definition configure_optimizers (named_parameters : list parameter)
    (weight_decay : R) (device : string) (fused_available : bool)
  : configured :=
  let param_dict := named_parameters in
  let param_dict := filter (fun p => requires_grad p = true) param_dict in
  let decay_params := filter (fun p => 2 <= dim p) param_dict in
  let nodecay_params := filter (fun p => dim p < 2) param_dict in
  let optim_groups :=
    [mk_group decay_params weight_decay; mk_group nodecay_params 0%R] in
  let num_decay_params := sum_list (numel <$> decay_params) in
  let num_nodecay_params := sum_list (numel <$> nodecay_params) in
  let use_fused :=
    fused_available && DataLoaderLite.contains "cuda" device in
  mk_configured optim_groups num_decay_params num_nodecay_params use_fused.

End Optimizer.

(** ** The cadence of the training loop *)

Module Loop.

Section Cadence.

(** [max_steps], [master_process] and [use_compile] of the script. *)
Variable max_steps : Z.
Variable master_process use_compile : bool.

(** [last_step = (step == max_steps - 1)] *)
Definition last_step (step : Z) : bool := (step =? max_steps - 1)%Z.

(** The guard of the validation block. *)
Definition validates (step : Z) : bool :=
  (step mod 250 =? 0)%Z || last_step step.

(** Whether the checkpoint is written: the innermost [if] of the
    validation block, under [if master_process]. *)
Definition saves_checkpoint (step : Z) : bool :=
  validates step && master_process &&
  ((0 <? step)%Z && ((step mod 5000 =? 0)%Z || last_step step)).

(** The guard of the benchmark block. *)
Definition scores_benchmark (step : Z) : bool :=
  ((step mod 250 =? 0)%Z || last_step step) && negb use_compile.

(** The guard of the sampling block. *)
Definition samples (step : Z) : bool :=
  (((0 <? step)%Z && (step mod 250 =? 0)%Z) || last_step step)
  && negb use_compile.

End Cadence.

End Loop.

(** ** The sampling loop *)

Module Sampler.

Section Generate.

(** The model the loop calls. *)
Variable config : GPT.GPTConfig.

(** The token ids that the multinomial draw and the gather select, one
    per sequence.  The draw belongs to the generator; here it is a
    function of the sequences generated so far. *)
Variable sample_column : list (list Z) -> list Z.

Variable max_length : nat.

(** [xgen.size(1)] of a tensor with at least one row. *)
Definition size1 (xgen : list (list Z)) : nat :=
  match xgen with
  | [] => 0
  | row :: _ => length row
  end.

(** [tokens.unsqueeze(0).repeat(num_return_sequences, 1)] *)
Definition repeat_prompt (num_return_sequences : nat) (tokens : list Z)
  : list (list Z) :=
  replicate num_return_sequences tokens.

(** [logits[:, -1, :]]: the index -1 needs a position. *)
Definition last_position (logits : GPT.shape) : result GPT.shape :=
  match logits with
  | [B; T; V] => if T =? 0 then Raise IndexError else Ok [B; V]
  | _ => Raise IndexError
  end.

(** [torch.topk(probs, k, dim=-1)]: [k] may not exceed the size of the
    last dimension. *)
Definition topk (probs : GPT.shape) (k : nat) : result GPT.shape :=
  match probs with
  | [B; V] => if V <? k then Raise RuntimeError else Ok [B; k]
  | _ => Raise RuntimeError
  end.

(** [torch.cat((xgen, xcol), dim=1)] with [xcol] of shape (B, 1). *)
Definition cat_column (xgen : list (list Z)) (xcol : list Z)
  : result (list (list Z)) :=
  if length xgen =? length xcol
  then Ok (zip_with (fun row tok => row ++ [tok]) xgen xcol)
  else Raise RuntimeError.

(** The body of the [while] loop: the forward pass, the logits at the
    last position (the softmax keeps their shape), the top 50, then the
    sampled column is appended.  The [autocast] context is taken to
    accept the device. *)
Definition loop_body (xgen : list (list Z)) : result (list (list Z)) :=
  '(logits, _) ← GPT.forward config
        (GPT.mk_int [length xgen; size1 xgen] (concat xgen)) None;
  probs ← last_position logits;
  _ ← topk probs 50;
  cat_column xgen (sample_column xgen).

(** [while xgen.size(1) < max_length: ...], run for at most [fuel]
    iterations; [None] when the fuel runs out first. *)
Fixpoint while_loop (fuel : nat) (xgen : list (list Z))
  : option (result (list (list Z))) :=
  if size1 xgen <? max_length then
    match fuel with
    | O => None
    | S fuel' =>
        match loop_body xgen with
        | Ok xgen' => while_loop fuel' xgen'
        | Raise e => Some (Raise e)
        end
    end
  else Some (Ok xgen).

(** The prompt replicated, then the loop. *)
Definition generate (num_return_sequences : nat) (tokens : list Z)
    (fuel : nat) : option (result (list (list Z))) :=
  while_loop fuel (repeat_prompt num_return_sequences tokens).

(** [xgen[i, :max_length].tolist()] for the given [i]s, in order. *)
Fixpoint decoded (xgen : list (list Z)) (indices : list nat)
  : result (list (list Z)) :=
  match indices with
  | [] => Ok []
  | i :: rest =>
      match xgen !! i with
      | None => Raise IndexError
      | Some row =>
          rows ← decoded xgen rest;
          Ok (take max_length row :: rows)
      end
  end.

(** The token lists that the final [for i in range(num_return_sequences)]
    hands to the decoder. *)
Definition printed (num_return_sequences : nat) (xgen : list (list Z))
  : result (list (list Z)) :=
  decoded xgen (seq 0 num_return_sequences).

End Generate.

End Sampler.

(** ** The striping of benchmark examples over the workers *)

Module Striping.

(** [if i % ddp_world_size != ddp_rank: continue]: whether the worker
    gets past the guard to the body of the loop for example [i]. *)
Definition takes (ddp_world_size ddp_rank i : Z) : result bool :=
  r ← Num.mod_ i ddp_world_size;
  Ok (negb (negb (r =? ddp_rank)%Z)).

End Striping.

(** * Properties *)

(** ** Lists, slices and views *)

Section ListFacts.

Context {A : Type}.
Implicit Types (l : list A) (w n i j : nat).

Lemma length_but_last l : length (but_last l) = length l - 1.
Proof. unfold but_last. rewrite length_take. lia. Qed.

Lemma length_from_1 l : length (from_1 l) = length l - 1.
Proof. unfold from_1. apply length_drop. Qed.

Lemma lookup_but_last l i :
  i < length l - 1 -> but_last l !! i = l !! i.
Proof. intros Hi. unfold but_last. by rewrite lookup_take_lt. Qed.

Lemma lookup_from_1 l i : from_1 l !! i = l !! (S i).
Proof. unfold from_1. by rewrite lookup_drop. Qed.

Lemma length_slice l a b :
  length (slice l a b) = Nat.min (b - a) (length l - a).
Proof. unfold slice. by rewrite length_take, length_drop. Qed.

Lemma lookup_slice l a b i :
  i < b - a -> slice l a b !! i = l !! (a + i).
Proof. intros Hi. unfold slice. by rewrite lookup_take_lt, lookup_drop. Qed.

Lemma length_rows w n l : length (Tensor.rows w n l) = n.
Proof. revert l. induction n as [|n IH]; intros l; simpl; [done|]. by rewrite IH. Qed.

Lemma rows_widths w n l :
  length l = n * w -> Forall (fun r => length r = w) (Tensor.rows w n l).
Proof.
  revert l. induction n as [|n IH]; intros l Hl; simpl; [constructor|].
  constructor.
  - rewrite length_take. lia.
  - apply IH. rewrite length_drop. lia.
Qed.

Lemma concat_rows w n l :
  length l = n * w -> concat (Tensor.rows w n l) = l.
Proof.
  revert l. induction n as [|n IH]; intros l Hl; simpl.
  - by destruct l.
  - rewrite IH by (rewrite length_drop; lia). apply take_drop.
Qed.

Lemma lookup_rows w n l i j :
  i < n -> j < w -> length l = n * w ->
  Tensor.at2 (Tensor.rows w n l) i j = l !! (i * w + j).
Proof.
  unfold Tensor.at2. revert l i.
  induction n as [|n IH]; intros l i Hi Hj Hl; [lia|].
  destruct i as [|i]; simpl.
  - by rewrite lookup_take_lt.
  - rewrite IH by (rewrite ?length_drop; lia).
    rewrite lookup_drop. f_equal. lia.
Qed.

Lemma view_Ok_inv l n w x :
  Tensor.view l n w = Ok x -> length l = n * w /\ x = Tensor.rows w n l.
Proof.
  unfold Tensor.view. destruct (Nat.eqb_spec (length l) (n * w)); [|done].
  intros [= <-]. done.
Qed.

Lemma view_Ok l n w :
  length l = n * w -> Tensor.view l n w = Ok (Tensor.rows w n l).
Proof. intros Hl. unfold Tensor.view. by rewrite Hl, Nat.eqb_refl. Qed.

End ListFacts.

(** ** The data feeder *)

Module FeederFacts.

Import DataLoaderLite.

Lemma bind_Ok_inv {A B} (m : result A) (k : A -> result B) (b : B) :
  m ≫= k = Ok b -> exists a, m = Ok a /\ k a = Ok b.
Proof. destruct m as [a|e]; [|done]. intros H. by exists a. Qed.

Section WithFiles.

Variable np_load : string -> result (list Z).

Lemma batch_Ok_inv self x y :
  batch self = Ok (x, y) ->
  length (but_last (window self)) = B self * T self /\
  length (from_1 (window self)) = B self * T self /\
  x = Tensor.rows (T self) (B self) (but_last (window self)) /\
  y = Tensor.rows (T self) (B self) (from_1 (window self)).
Proof.
  unfold batch. intros H.
  apply bind_Ok_inv in H as (x' & Hx & H).
  apply bind_Ok_inv in H as (y' & Hy & H).
  injection H as <- <-.
  apply view_Ok_inv in Hx as [? ?], Hy as [? ?]. done.
Qed.

(** The slicing part succeeds whenever the window fits in the shard. *)
Lemma batch_Ok self :
  current_position self + B self * T self + 1 <= length (tokens self) ->
  exists x y, batch self = Ok (x, y).
Proof.
  intros Hfit.
  assert (Hw : length (window self) = B self * T self + 1).
  { unfold window. rewrite length_slice. lia. }
  assert (Hx : length (but_last (window self)) = B self * T self)
    by (rewrite length_but_last; lia).
  assert (Hy : length (from_1 (window self)) = B self * T self)
    by (rewrite length_from_1; lia).
  unfold batch. rewrite (view_Ok _ _ _ Hx), (view_Ok _ _ _ Hy). simpl.
  eauto.
Qed.

Lemma next_batch_Ok_inv self x y self' :
  next_batch np_load self = Ok (x, y, self') ->
  batch self = Ok (x, y) /\ advance np_load self = Ok self'.
Proof.
  unfold next_batch. intros H.
  apply bind_Ok_inv in H as ([x' y'] & Hb & H).
  apply bind_Ok_inv in H as (s & Ha & H).
  by injection H as <- <- <-.
Qed.

Lemma advance_config self self' :
  advance np_load self = Ok self' ->
  B self' = B self /\ T self' = T self /\
  process_rank self' = process_rank self /\
  num_processes self' = num_processes self /\
  shards self' = shards self.
Proof.
  unfold advance. case_match.
  - destruct (length (shards self)); [done|].
    intros Ha. apply bind_Ok_inv in Ha as (f & _ & Ha).
    apply bind_Ok_inv in Ha as (tk & _ & Ha). by injection Ha as <-.
  - by intros [= <-].
Qed.

(** Without a wrap the update is a pure advance; it cannot raise. *)
Lemma advance_no_wrap self :
  let stride := B self * T self * num_processes self in
  current_position self + stride + (stride + 1) <= length (tokens self) ->
  advance np_load self =
    Ok (mk (B self) (T self) (process_rank self) (num_processes self)
           (shards self) (current_shard self) (tokens self)
           (current_position self + stride)).
Proof.
  intros stride Hfit. unfold advance. fold stride.
  destruct (Nat.ltb_spec (length (tokens self))
              (current_position self + stride + (stride + 1))); [lia|done].
Qed.

(** With a wrap the update moves to the circular successor shard. *)
Lemma advance_wrap self filename toks :
  let stride := B self * T self * num_processes self in
  let shard := (current_shard self + 1) mod length (shards self) in
  length (tokens self) < current_position self + stride + (stride + 1) ->
  shards self !! shard = Some filename ->
  np_load filename = Ok toks ->
  advance np_load self =
    Ok (mk (B self) (T self) (process_rank self) (num_processes self)
           (shards self) shard toks
           (B self * T self * process_rank self)).
Proof.
  intros stride shard Hwrap Hname Hload. unfold advance. fold stride.
  destruct (Nat.ltb_spec (length (tokens self))
              (current_position self + stride + (stride + 1))); [|lia].
  destruct (length (shards self)) eqn:Hn.
  { apply lookup_lt_Some in Hname. lia. }
  fold shard. unfold getitem. rewrite Hname. simpl.
  unfold load_tokens. by rewrite Hload.
Qed.

Lemma advance_Ok_inv self self' :
  let stride := B self * T self * num_processes self in
  advance np_load self = Ok self' ->
  if length (tokens self) <? current_position self + stride + (stride + 1)
  then
    current_shard self' = (current_shard self + 1) mod length (shards self)
    /\ current_shard self' < length (shards self)
    /\ (exists filename, shards self !! current_shard self' = Some filename
                         /\ np_load filename = Ok (tokens self'))
    /\ current_position self' = B self * T self * process_rank self
  else
    current_shard self' = current_shard self
    /\ tokens self' = tokens self
    /\ current_position self' = current_position self + stride.
Proof.
  intros stride. unfold advance. fold stride.
  set (shard := (current_shard self + 1) mod length (shards self)).
  case_match.
  - destruct (length (shards self)) as [|n] eqn:Hn; [done|].
    intros Ha. apply bind_Ok_inv in Ha as (f & Hf & Ha).
    apply bind_Ok_inv in Ha as (tk & Htk & Ha). injection Ha as <-.
    cbn [current_shard tokens current_position].
    unfold getitem in Hf. destruct (_ !! _) as [f'|] eqn:Hlk; [|done].
    injection Hf as ->.
    split; [done|]. split; [apply lookup_lt_Some in Hlk; lia|].
    split; [|done]. by exists f.
  - by intros [= <-].
Qed.

Lemma reset_same_config s1 s2 :
  B s1 = B s2 -> T s1 = T s2 -> process_rank s1 = process_rank s2 ->
  num_processes s1 = num_processes s2 -> shards s1 = shards s2 ->
  reset np_load s1 = reset np_load s2.
Proof. unfold reset. by intros -> -> -> -> ->. Qed.

End WithFiles.

End FeederFacts.

(** ** Claims about the data feeder *)

Module FeederClaims.

Import DataLoaderLite FeederFacts.

(** C1, as stated, fails on the code.  With [B=4], [T=8], one process and
    shards of 1000 tokens, the 126th call after [reset()] neither wraps
    nor returns the start of a shard: it finds the feeder in the fifth
    shard at position 32, returns tokens 32..63 of that shard and leaves
    the feeder in the same shard at position 64. *)
Lemma C1_counterexample_126th_call :
  Example.call_state 125 = Ok (4, 32) /\
  Example.call_tokens 126 = Ok (slice (Example.shard_tokens 4) 32 64) /\
  Example.call_state 126 = Ok (4, 64) /\
  forall i, Example.call_tokens 126 <> Ok (slice (Example.shard_tokens i) 0 32).
Proof.
  split; [by vm_compute|]. split; [by vm_compute|]. split; [by vm_compute|].
  intros i Heq.
  assert (Hhd : Example.call_tokens 126 ≫= (fun l => Ok (head l))
                = Ok (Some 4032%Z)) by (by vm_compute).
  rewrite Heq in Hhd. cbn in Hhd. injection Hhd as Hhd. lia.
Qed.

(** The trigger of C1 can hold before a call (here
    [0 + 1*2*2 + 1 > 4] on the short shard) and the call still returns
    the tokens of the active shard, not those of its successor. *)
Lemma trigger_before_call_reads_active_shard :
  let self := mk 1 2 0 2 ["long"; "short"] 1 [10; 11; 12; 13]%Z 0 in
  (reset Example.np_load_short Example.loader_short
     ≫= after Example.np_load_short 2) = Ok self /\
  length (tokens self)
    < current_position self + B self * T self * num_processes self + 1 /\
  next_batch Example.np_load_short self =
    Ok ([[10; 11]]%Z, [[11; 12]]%Z,
        mk 1 2 0 2 ["long"; "short"] 0 [0; 1; 2; 3; 4; 5; 6; 7; 8]%Z 0).
Proof. split; [by vm_compute|]. split; [simpl; lia|by vm_compute]. Qed.

(** C1, amended: [next_batch()] first cuts the returned pair from the
    active shard at the position it finds; only then it advances the
    position by [B*T*num_processes], and if the batch after this one would
    not fit (advanced position + [B*T*num_processes] + 1 exceeds the shard's
    token count) it moves to shard [(current_shard+1) mod num_shards],
    loads it and resets the position to [B*T*process_rank], so that the
    wrap shows in the following call.  With [B=4], [T=8], one process and
    1000-token shards, calls 1 to 31 return consecutive windows of the
    first shard, the 31st call triggers the wrap, the 32nd call returns the
    start of the second shard, and the 126th call returns tokens 32..63 of
    the fifth shard. *)
Theorem C1_wrap_takes_effect_on_the_following_call
    (np_load : string -> result (list Z)) (self : t)
    (x y : list (list Z)) (self' : t)
    (Hcall : next_batch np_load self = Ok (x, y, self')) :
  let stride := B self * T self * num_processes self in
  (batch self = Ok (x, y) /\
   concat x = but_last (window self) /\
   concat y = from_1 (window self)) /\
  (B self' = B self /\ T self' = T self /\
   process_rank self' = process_rank self /\
   num_processes self' = num_processes self /\
   shards self' = shards self) /\
  (if length (tokens self) <? current_position self + stride + (stride + 1)
   then
     current_shard self' = (current_shard self + 1) mod length (shards self)
     /\ current_shard self' < length (shards self)
     /\ (exists filename, shards self !! current_shard self' = Some filename
                          /\ np_load filename = Ok (tokens self'))
     /\ current_position self' = B self * T self * process_rank self
   else
     current_shard self' = current_shard self
     /\ tokens self' = tokens self
     /\ current_position self' = current_position self + stride) /\
  (Forall (fun k => Example.call_tokens (S k)
                    = Ok (slice (Example.shard_tokens 0) (32 * k) (32 * k + 32)))
          (seq 0 31) /\
   Example.call_state 30 = Ok (0, 960) /\
   Example.call_state 31 = Ok (1, 0) /\
   Example.call_tokens 32 = Ok (slice (Example.shard_tokens 1) 0 32) /\
   Example.call_tokens 126 = Ok (slice (Example.shard_tokens 4) 32 64)).
Proof.
  intros stride.
  apply next_batch_Ok_inv in Hcall as [Hb Ha].
  split.
  { split; [done|].
    apply batch_Ok_inv in Hb as (Lx & Ly & -> & ->).
    by rewrite !concat_rows by (rewrite ?Lx, ?Ly; lia). }
  split; [by apply (advance_config np_load)|].
  split; [by apply advance_Ok_inv|].
  split; [|by vm_compute].
  repeat (constructor; [by vm_compute|]). constructor.
Qed.

(** The amended C1 at the call that wraps from the long to the short
    shard of the two-process example. *)
Lemma C1_wrap_witness :
  let self := mk 1 2 0 2 ["long"; "short"] 0 [0; 1; 2; 3; 4; 5; 6; 7; 8]%Z 4 in
  let self' := mk 1 2 0 2 ["long"; "short"] 1 [10; 11; 12; 13]%Z 0 in
  next_batch Example.np_load_short self = Ok ([[4; 5]]%Z, [[5; 6]]%Z, self') /\
  concat [[4; 5]]%Z = but_last (window self).
Proof.
  intros self self'.
  assert (H : next_batch Example.np_load_short self
              = Ok ([[4; 5]]%Z, [[5; 6]]%Z, self')) by reflexivity.
  split; [exact H|].
  exact (proj1 (proj2 (proj1
    (C1_wrap_takes_effect_on_the_following_call
       Example.np_load_short self _ _ self' H)))).
Defined.

(** C2: the pair [next_batch()] returns consists of two tensors of shape
    [(B, T)] cut from one contiguous window of the active shard that
    starts at [current_position]; the window has [B*T+1] tokens (for a
    non-empty batch shape), [x] is the window without its last token, [y]
    the window without its first, so [y[i][j]] is the token that follows
    [x[i][j]]. *)
Theorem C2_batch_is_window_and_shifted_window
    (np_load : string -> result (list Z)) (self : t)
    (x y : list (list Z)) (self' : t)
    (Hcall : next_batch np_load self = Ok (x, y, self')) :
  let w := window self in
  let p := current_position self in
  Tensor.has_shape x (B self) (T self) /\
  Tensor.has_shape y (B self) (T self) /\
  w = take (B self * T self + 1) (drop p (tokens self)) /\
  (length w = B self * T self + 1 \/ (B self * T self = 0 /\ w = [])) /\
  (0 < B self * T self -> length w = B self * T self + 1) /\
  concat x = but_last w /\
  concat y = from_1 w /\
  (forall i j, i < B self -> j < T self ->
     exists a b,
       Tensor.at2 x i j = Some a /\ Tensor.at2 y i j = Some b /\
       tokens self !! (p + (i * T self + j)) = Some a /\
       tokens self !! (p + (i * T self + j) + 1) = Some b) /\
  (forall k, S k < B self * T self -> concat y !! k = concat x !! S k).
Proof.
  intros w p.
  apply next_batch_Ok_inv in Hcall as [Hb _].
  apply batch_Ok_inv in Hb as (Lx & Ly & -> & ->). fold w in Lx, Ly |- *.
  assert (Hw : w = take (B self * T self + 1) (drop p (tokens self))).
  { unfold w, window, slice. fold p. f_equal. lia. }
  assert (Hlen : 0 < B self * T self -> length w = B self * T self + 1).
  { rewrite length_but_last in Lx. lia. }
  assert (Hcx : concat (Tensor.rows (T self) (B self) (but_last w))
                = but_last w) by (apply concat_rows; lia).
  assert (Hcy : concat (Tensor.rows (T self) (B self) (from_1 w))
                = from_1 w) by (apply concat_rows; lia).
  split; [split; [apply length_rows|apply rows_widths; lia]|].
  split; [split; [apply length_rows|apply rows_widths; lia]|].
  split; [done|].
  split.
  { rewrite length_but_last in Lx. destruct w as [|tok w']; [right|left].
    - by cbn in Lx.
    - cbn [length] in *. lia. }
  split; [done|]. split; [done|]. split; [done|].
  split.
  - intros i j Hi Hj.
    assert (Hk : i * T self + j < B self * T self) by nia.
    specialize (Hlen ltac:(lia)).
    rewrite !lookup_rows by (done || lia).
    rewrite lookup_but_last by lia. rewrite lookup_from_1.
    assert (Hwa : w !! (i * T self + j) = tokens self !! (p + (i * T self + j))).
    { rewrite Hw, lookup_take_lt by lia. by rewrite lookup_drop. }
    assert (Hwb : w !! S (i * T self + j)
                  = tokens self !! (p + (i * T self + j) + 1)).
    { rewrite Hw, lookup_take_lt by lia. rewrite lookup_drop. f_equal. lia. }
    destruct (lookup_lt_is_Some_2 w (i * T self + j)) as [a Ha]; [lia|].
    destruct (lookup_lt_is_Some_2 w (S (i * T self + j))) as [b Hbb]; [lia|].
    exists a, b. rewrite <- Hwa, <- Hwb. done.
  - intros k Hk. rewrite Hcx, Hcy, lookup_from_1.
    rewrite lookup_but_last; [done|]. rewrite length_but_last in Lx. lia.
Qed.

(** C2 at the first call of the two-process example. *)
Lemma C2_witness :
  Tensor.has_shape [[0; 1]]%Z 1 2 /\ Tensor.has_shape [[1; 2]]%Z 1 2.
Proof.
  pose (self := mk 1 2 0 2 ["long"; "short"] 0
                   [0; 1; 2; 3; 4; 5; 6; 7; 8]%Z 0).
  pose (self' := mk 1 2 0 2 ["long"; "short"] 0
                    [0; 1; 2; 3; 4; 5; 6; 7; 8]%Z 4).
  assert (H : next_batch Example.np_load_short self
              = Ok ([[0; 1]]%Z, [[1; 2]]%Z, self')) by reflexivity.
  pose proof (C2_batch_is_window_and_shifted_window
                Example.np_load_short self _ _ self' H) as C.
  exact (conj (proj1 C) (proj1 (proj2 C))).
Defined.

(** C3: for a fixed configuration [(B, T, process_rank, num_processes)]
    and fixed shard files, [reset()] followed by [k] calls of
    [next_batch()] yields the same sequence of batches (and of failures)
    whatever state the feeder was in before: the sequence is a function of
    the configuration, the shard contents and [k] alone. *)
Theorem C3_reset_then_batches_is_deterministic
    (np_load : string -> result (list Z)) (k : nat) (run1 run2 : t)
    (HB : B run1 = B run2) (HT : T run1 = T run2)
    (Hrank : process_rank run1 = process_rank run2)
    (Hprocs : num_processes run1 = num_processes run2)
    (Hshards : shards run1 = shards run2) :
  reset_then_batches np_load k run1 = reset_then_batches np_load k run2.
Proof.
  unfold reset_then_batches.
  by rewrite (reset_same_config np_load run1 run2).
Qed.

(** C3 on the two-process example, from two different earlier states. *)
Lemma C3_witness :
  reset_then_batches Example.np_load_short 5 Example.loader_short =
  reset_then_batches Example.np_load_short 5
    (mk 1 2 0 2 ["long"; "short"] 1 [10; 11; 12; 13]%Z 7).
Proof.
  exact (C3_reset_then_batches_is_deterministic Example.np_load_short 5
           Example.loader_short
           (mk 1 2 0 2 ["long"; "short"] 1 [10; 11; 12; 13]%Z 7)
           eq_refl eq_refl eq_refl eq_refl eq_refl).
Defined.

End FeederClaims.

(** ** The feeder's constructor *)

Module ConstructorFacts.

Import DataLoaderLite.

Lemma names_with_str (s : string) (names : list string) :
  names_with (PyStr s) names
  = Ok (filter (fun n => Is_true (contains s n)) names).
Proof.
  induction names as [|n names IH]; [done|].
  cbn [names_with in_str]. rewrite IH. cbn.
  by destruct (contains s n).
Qed.

Lemma elem_of_insert_sorted (x s : string) (l : list string) :
  x ∈ insert_sorted s l <-> x = s \/ x ∈ l.
Proof.
  induction l as [|h l IH]; simpl.
  - rewrite list_elem_of_singleton, elem_of_nil. tauto.
  - destruct (String.leb s h); rewrite !elem_of_cons, ?IH; tauto.
Qed.

Lemma elem_of_sorted (x : string) (l : list string) :
  x ∈ sorted l <-> x ∈ l.
Proof.
  induction l as [|h l IH]; simpl; [done|].
  rewrite elem_of_insert_sorted, IH, elem_of_cons. tauto.
Qed.

Lemma length_insert_sorted (s : string) (l : list string) :
  length (insert_sorted s l) = S (length l).
Proof.
  induction l as [|h l IH]; simpl; [done|].
  destruct (String.leb s h); simpl; by rewrite ?IH.
Qed.

Lemma length_sorted (l : list string) : length (sorted l) = length l.
Proof.
  induction l as [|h l IH]; simpl; [done|].
  by rewrite length_insert_sorted, IH.
Qed.

Section WithFiles.

Variable os_listdir : string -> result (list string).
Variable np_load : string -> result (list Z).

(** Whatever the directory holds, the body of [__init__] stops at its
    first assertion: the global [split] is a function, not one of the
    two split names. *)
Lemma init_with_function (qualname : string) (B T rank procs : nat) :
  init os_listdir np_load (PyFunction qualname) B T rank procs
  = Raise AssertionError.
Proof. reflexivity. Qed.

(** Had [split] been bound to a split name, the constructor would do
    what its second assertion announces: it fails exactly when no file
    name of the directory contains the split name. *)
Lemma init_with_split_name (s : string) (names : list string)
    (B T rank procs : nat) :
  s ∈ ["train"; "val"]%string ->
  os_listdir data_root = Ok names ->
  (forall n, n ∈ names ->
     exists toks, np_load (path_join data_root n) = Ok toks) ->
  ((forall n, n ∈ names -> contains s n = false) ->
     init os_listdir np_load (PyStr s) B T rank procs
     = Raise AssertionError) /\
  ((exists n, n ∈ names /\ contains s n = true) ->
     exists self, init os_listdir np_load (PyStr s) B T rank procs
                  = Ok self /\
                  DataLoaderLite.B self = B /\ DataLoaderLite.T self = T /\
                  current_shard self = 0 /\
                  current_position self = B * T * rank).
Proof.
  intros Hs Hdir Hload. unfold init.
  cbn [in_str_set]. rewrite (bool_decide_eq_true_2 _ Hs). cbn [assert].
  cbn [mbind result_bind]. rewrite Hdir. cbn [mbind result_bind].
  rewrite names_with_str. cbn [mbind result_bind].
  set (kept := filter (fun n => Is_true (contains s n)) names).
  split.
  - intros Hnone.
    assert (kept = []) as ->.
    { apply elem_of_nil_inv. intros n [Hc Hn]%list_elem_of_filter.
      by rewrite (Hnone n Hn) in Hc. }
    reflexivity.
  - intros (n & Hn & Hc).
    assert (Hk : n ∈ kept).
    { apply list_elem_of_filter. split; [by rewrite Hc|done]. }
    destruct (sorted kept) as [|f fs] eqn:Hsorted.
    { apply elem_of_sorted in Hk. rewrite Hsorted in Hk.
      by apply elem_of_nil in Hk. }
    assert (Hf : f ∈ names).
    { assert (f ∈ sorted kept) as Hf 
        by (rewrite Hsorted; apply elem_of_cons; by left).
      apply elem_of_sorted, list_elem_of_filter in Hf. tauto. }
    destruct (Hload f Hf) as [toks Htoks].
    cbn. unfold load_tokens. rewrite Htoks. eauto 10.
Qed.

End WithFiles.

End ConstructorFacts.

Module ConstructorClaims.

Import DataLoaderLite ConstructorFacts.

(** C4 (the code departs from it): the constructor of the source fails on
    every directory, shards or no shards.  Called with the parameters
    [__init__] declares it raises [AssertionError] at
    [assert split in {'train', 'val'}], where [split] is the function
    imported from numpy; called with the keyword [split=...], as the
    training script does, it raises [TypeError].  On a directory with six
    train shards both calls fail, although the same body run with [split]
    bound to ['train'] constructs the feeder on the first shard in sorted
    order. *)
Theorem C4_constructor_fails_even_with_shards :
  (forall os_listdir np_load B T rank procs,
     __init__ os_listdir np_load B T rank procs = Raise AssertionError) /\
  (forall os_listdir np_load B T rank procs kw extra,
     call os_listdir np_load B T rank procs (kw :: extra) = Raise TypeError) /\
  __init__ Example.os_listdir Example.np_load 4 8 0 1 = Raise AssertionError /\
  call Example.os_listdir Example.np_load 4 8 0 1 [("split"%string, PyStr "train")]
  = Raise TypeError /\
  init Example.os_listdir Example.np_load (PyStr "train") 4 8 0 1
  = Ok (mk 4 8 0 1 Example.train_paths 0 (Example.shard_tokens 0) 0).
Proof.
  split; [intros; apply init_with_function|].
  split; [done|]. split; [apply init_with_function|]. split; [done|].
  by vm_compute.
Qed.

End ConstructorClaims.

(** ** The learning-rate schedule *)

Module ScheduleFacts.

Import Schedule.
Local Open Scope R_scope.

Lemma truediv_Ok (a b : R) : b <> 0 -> Num.truediv a b = Ok (a / b).
Proof. intros Hb. unfold Num.truediv. by destruct (Req_dec_T b 0). Qed.

Lemma Rleb_true (a b : R) : a <= b -> Num.Rleb a b = true.
Proof. intros H. unfold Num.Rleb. by destruct (Rle_dec a b). Qed.

Lemma Rleb_false (a b : R) : ~ a <= b -> Num.Rleb a b = false.
Proof. intros H. unfold Num.Rleb. by destruct (Rle_dec a b). Qed.

Lemma IZR_pos_neq_0 (z : Z) : (0 < z)%Z -> IZR z <> 0.
Proof. intros Hz. apply not_0_IZR. lia. Qed.

Lemma ratio_in_unit (a b : Z) :
  (0 <= a <= b)%Z -> (0 < b)%Z -> 0 <= IZR a / IZR b <= 1.
Proof.
  intros [Ha Hab] Hb.
  apply IZR_le in Ha, Hab. apply IZR_lt in Hb.
  pose proof (Rinv_0_lt_compat _ Hb) as Hi.
  assert (IZR b * / IZR b = 1) by (apply Rinv_r; lra).
  unfold Rdiv. split; nra.
Qed.

Section WithConstants.

Variable max_lr : R.
Variable warmup_steps max_steps : Z.

Lemma cosine_phase_Ok (r : R) :
  0 <= r <= 1 -> cosine_phase max_lr r = Ok (cosine max_lr r).
Proof.
  intros [H0 H1]. unfold cosine_phase.
  by rewrite (Rleb_true _ _ H0), (Rleb_true _ _ H1).
Qed.

Lemma cosine_phase_Raise (r : R) :
  ~ (0 <= r <= 1) -> cosine_phase max_lr r = Raise AssertionError.
Proof.
  intros Hr. unfold cosine_phase.
  destruct (Rle_dec 0 r) as [H0|H0].
  - rewrite (Rleb_true _ _ H0), Rleb_false; [done|]. tauto.
  - by rewrite (Rleb_false _ _ H0).
Qed.

Lemma cosine_0 : cosine max_lr 0 = max_lr.
Proof. unfold cosine, min_lr. rewrite Rmult_0_r, cos_0. lra. Qed.

Lemma cosine_1 : cosine max_lr 1 = min_lr max_lr.
Proof. unfold cosine, min_lr. rewrite Rmult_1_r, cos_PI. lra. Qed.

Hypothesis warmup_pos : (0 < warmup_steps)%Z.
Hypothesis warmup_before_max : (warmup_steps < max_steps)%Z.

Lemma get_lr_warmup (s : Z) :
  (s < warmup_steps)%Z ->
  get_lr max_lr warmup_steps max_steps s
  = Ok (max_lr * (IZR s + 1) / IZR warmup_steps).
Proof using warmup_pos.
  intros Hs. unfold get_lr.
  destruct (Z.ltb_spec s warmup_steps); [|lia].
  rewrite truediv_Ok by (by apply IZR_pos_neq_0).
  by rewrite plus_IZR.
Qed.

Lemma get_lr_floor (s : Z) :
  (max_steps < s)%Z ->
  get_lr max_lr warmup_steps max_steps s = Ok (min_lr max_lr).
Proof using warmup_before_max.
  intros Hs. unfold get_lr.
  destruct (Z.ltb_spec s warmup_steps); [lia|].
  destruct (Z.ltb_spec max_steps s); [done|lia].
Qed.

Lemma get_lr_cosine (s : Z) :
  (warmup_steps <= s <= max_steps)%Z ->
  let r := IZR (s - warmup_steps) / IZR (max_steps - warmup_steps) in
  decay_ratio warmup_steps max_steps s = Ok r /\
  0 <= r <= 1 /\
  get_lr max_lr warmup_steps max_steps s = Ok (cosine max_lr r).
Proof using warmup_before_max.
  intros Hs r.
  assert (Hd : decay_ratio warmup_steps max_steps s = Ok r).
  { unfold decay_ratio. apply truediv_Ok, IZR_pos_neq_0. lia. }
  assert (Hr : 0 <= r <= 1) by (apply ratio_in_unit; lia).
  split; [done|]. split; [done|].
  unfold get_lr.
  destruct (Z.ltb_spec s warmup_steps); [lia|].
  destruct (Z.ltb_spec max_steps s); [lia|].
  rewrite Hd. cbn [mbind result_bind]. by apply cosine_phase_Ok.
Qed.

End WithConstants.

End ScheduleFacts.

Module ScheduleClaims.

Import Schedule ScheduleFacts.
Local Open Scope R_scope.

(** C5: over the reals, with [0 < warmup_steps < max_steps], [get_lr] is
    the three-phase function of the step: the linear ramp
    [max_lr * (s+1) / warmup_steps] below [warmup_steps], the constant
    [min_lr = 0.1 * max_lr] above [max_steps], and in between the cosine
    interpolation over [decay_ratio], which lies in [0, 1] on that phase.
    Hence [lr(0) = max_lr / warmup_steps] and [lr(max_steps) = min_lr]; the
    value does not jump at either phase boundary
    ([lr(warmup_steps - 1) = lr(warmup_steps) = max_lr] and
    [lr(max_steps) = lr(max_steps + 1) = min_lr]); and a [decay_ratio]
    outside [0, 1] reaching the cosine phase raises [AssertionError]
    instead of being clamped. *)
Theorem C5_three_phase_schedule (max_lr : R) (warmup_steps max_steps : Z)
    (warmup_pos : (0 < warmup_steps)%Z)
    (warmup_before_max : (warmup_steps < max_steps)%Z) :
  let lr := get_lr max_lr warmup_steps max_steps in
  let min_lr := Schedule.min_lr max_lr in
  min_lr = 0.1 * max_lr /\
  (forall s, (s < warmup_steps)%Z ->
     lr s = Ok (max_lr * (IZR s + 1) / IZR warmup_steps)) /\
  (forall s, (max_steps < s)%Z -> lr s = Ok min_lr) /\
  (forall s, (warmup_steps <= s <= max_steps)%Z ->
     let decay_ratio :=
       IZR (s - warmup_steps) / IZR (max_steps - warmup_steps) in
     0 <= decay_ratio <= 1 /\
     lr s = Ok (min_lr
                + 0.5 * (1 + cos (PI * decay_ratio)) * (max_lr - min_lr))) /\
  lr 0%Z = Ok (max_lr / IZR warmup_steps) /\
  lr max_steps = Ok min_lr /\
  (lr (warmup_steps - 1)%Z = Ok max_lr /\ lr warmup_steps = Ok max_lr) /\
  (lr max_steps = Ok min_lr /\ lr (max_steps + 1)%Z = Ok min_lr) /\
  (forall s, (warmup_steps <= s <= max_steps)%Z ->
     lr s = decay_ratio warmup_steps max_steps s ≫= cosine_phase max_lr) /\
  (forall r, ~ (0 <= r <= 1) -> cosine_phase max_lr r = Raise AssertionError).
Proof.
  intros lr min_lr. unfold lr.
  assert (Hmax : get_lr max_lr warmup_steps max_steps max_steps = Ok min_lr).
  { destruct (get_lr_cosine max_lr warmup_steps max_steps warmup_before_max
                max_steps ltac:(lia)) as (_ & _ & ->).
    unfold Rdiv. rewrite Rinv_r by (apply IZR_pos_neq_0; lia).
    by rewrite cosine_1. }
  assert (Hwarm : get_lr max_lr warmup_steps max_steps warmup_steps
                  = Ok max_lr).
  { destruct (get_lr_cosine max_lr warmup_steps max_steps warmup_before_max
                warmup_steps ltac:(lia)) as (_ & _ & ->).
    rewrite Z.sub_diag. unfold Rdiv. rewrite Rmult_0_l. by rewrite cosine_0. }
  split; [unfold min_lr, Schedule.min_lr; lra|].
  split; [by apply get_lr_warmup|].
  split; [by apply get_lr_floor|].
  split.
  { intros s Hs.
    destruct (get_lr_cosine max_lr warmup_steps max_steps warmup_before_max
                s Hs) as (_ & Hr & ->).
    split; [done|]. f_equal. unfold cosine. fold min_lr. lra. }
  split.
  { rewrite get_lr_warmup by lia. f_equal. lra. }
  split; [done|].
  split.
  { split; [|done]. rewrite get_lr_warmup by lia. f_equal.
    rewrite minus_IZR. field. by apply IZR_pos_neq_0. }
  split; [split; [done|apply get_lr_floor; lia]|].
  split.
  { intros s Hs. unfold get_lr.
    destruct (Z.ltb_spec s warmup_steps); [lia|].
    destruct (Z.ltb_spec max_steps s); [lia|done]. }
  apply cosine_phase_Raise.
Qed.

(** C5 at the constants of the training script. *)
Lemma C5_witness :
  get_lr Schedule.max_lr Schedule.warmup_steps Schedule.max_steps
         Schedule.max_steps
  = Ok (Schedule.min_lr Schedule.max_lr).
Proof.
  exact (proj1 (proj2 (proj2 (proj2 (proj2 (proj2
    (C5_three_phase_schedule Schedule.max_lr Schedule.warmup_steps
       Schedule.max_steps ltac:(reflexivity) ltac:(reflexivity)))))))).
Defined.

End ScheduleClaims.

(** ** Start-up check and accumulation window *)

Module TrainFacts.

Import Train.

Lemma mod_Ok (a b : Z) : b <> 0%Z -> Num.mod_ a b = Ok (a mod b)%Z.
Proof. intros Hb. unfold Num.mod_. by destruct (Z.eqb_spec b 0). Qed.

Lemma floordiv_Ok (a b : Z) : b <> 0%Z -> Num.floordiv a b = Ok (a / b)%Z.
Proof. intros Hb. unfold Num.floordiv. by destruct (Z.eqb_spec b 0). Qed.

(** The three outcomes of the start-up check. *)
Lemma grad_accum_steps_cases (total B T ws : Z) :
  grad_accum_steps total B T ws =
    if (B * T * ws =? 0)%Z then Raise ZeroDivisionError
    else if (total mod (B * T * ws) =? 0)%Z then Ok (total / (B * T * ws))%Z
    else Raise AssertionError.
Proof.
  unfold grad_accum_steps.
  destruct (Z.eqb_spec (B * T * ws) 0) as [Hz|Hz].
  - unfold Num.mod_. by rewrite Hz.
  - rewrite mod_Ok by done. cbn [mbind result_bind].
    destruct (Z.eqb_spec (total mod (B * T * ws)) 0); [|done].
    cbn. by apply floordiv_Ok.
Qed.

Lemma range_S (n : nat) :
  Num.range (Z.of_nat (S n)) = Num.range (Z.of_nat n) ++ [Z.of_nat n].
Proof.
  unfold Num.range. rewrite !Nat2Z.id, seq_S, fmap_app. done.
Qed.

Lemma range_elem (n i : Z) : i ∈ Num.range n -> (0 <= i < n)%Z.
Proof.
  unfold Num.range. intros (k & -> & Hk)%list_elem_of_fmap.
  apply elem_of_seq in Hk. lia.
Qed.

Lemma Rsum_app (l k : list R) :
  Num.Rsum (l ++ k) = (Num.Rsum l + Num.Rsum k)%R.
Proof.
  unfold Num.Rsum. induction l as [|x l IH]; cbn [app foldr]; [lra|].
  rewrite IH. lra.
Qed.

Lemma Rsum_scaled (f : Z -> R) (c : R) (l : list Z) :
  Num.Rsum ((fun i => f i / c)%R <$> l) = (Num.Rsum (f <$> l) / c)%R.
Proof.
  unfold Num.Rsum. induction l as [|x l IH]; cbn [fmap list_fmap foldr].
  - lra.
  - rewrite IH. lra.
Qed.

Section Window.

Variable ddp : bool.
Variable gas : Z.
Variable forward_loss : Z -> R.

Local Abbreviation body := (micro_step_body ddp gas forward_loss).

(** The assignment of the loop leaves the gating attribute alone. *)
Lemma sync_attribute_untouched (m : gmap string bool) (i : Z) :
  (if ddp then
     <[ "required_backward_grad_sync"%string :=
          bool_decide (i = gas - 1)%Z ]> m
   else m) !! "require_backward_grad_sync"%string
  = m !! "require_backward_grad_sync"%string.
Proof. destruct ddp; [|done]. by rewrite lookup_insert_ne. Qed.

(** The loop, unrolled over any list of micro-steps. *)
Lemma foldl_body (l : list Z) (st : window_state) :
  let st' := foldl body st l in
  loss_accum st'
  = (loss_accum st
     + Num.Rsum ((fun i => forward_loss i / IZR gas)%R <$> l))%R /\
  ev_micro_step <$> backward_log st'
  = (ev_micro_step <$> backward_log st) ++ l /\
  ev_loss <$> backward_log st'
  = (ev_loss <$> backward_log st)
    ++ ((fun i => forward_loss i / IZR gas)%R <$> l) /\
  model st' !! "require_backward_grad_sync"%string
  = model st !! "require_backward_grad_sync"%string /\
  ev_synced <$> backward_log st'
  = (ev_synced <$> backward_log st)
    ++ ((fun _ => backward_syncs ddp (model st)) <$> l) /\
  (forall ev, ev ∈ backward_log st' ->
     ev ∈ backward_log st \/
     (ev_micro_step ev ∈ l /\
      (ddp = true ->
       ev_model ev !! "required_backward_grad_sync"%string
       = Some (bool_decide (ev_micro_step ev = gas - 1)%Z)))).
Proof.
  revert st. induction l as [|i l IH]; intros st; cbn [foldl].
  - cbn. rewrite !app_nil_r. repeat split; try lra; auto.
  - destruct (IH (body st i)) as (Ha & Hm & Hl & Hs & Hy & He).
    clear IH. cbn zeta.
    set (m' := if ddp then
                 <[ "required_backward_grad_sync"%string :=
                      bool_decide (i = gas - 1)%Z ]> (model st)
               else model st) in *.
    assert (Hattr : m' !! "require_backward_grad_sync"%string
                    = model st !! "require_backward_grad_sync"%string)
      by apply sync_attribute_untouched.
    assert (Hsync : backward_syncs ddp m' = backward_syncs ddp (model st)).
    { unfold backward_syncs. by rewrite Hattr. }
    cbn [micro_step_body loss_accum backward_log model] in Ha, Hm, Hl, Hs,
      Hy, He.
    fold m' in Hm, Hl, Hs, Hy, He.
    rewrite fmap_app, <- app_assoc in Hm.
    rewrite fmap_app, <- app_assoc in Hl.
    rewrite fmap_app, <- app_assoc in Hy.
    cbn [fmap list_fmap app ev_micro_step ev_loss ev_synced] in Hm, Hl, Hy.
    split.
    { rewrite Ha. unfold Num.Rsum. cbn [fmap list_fmap foldr]. lra. }
    split; [done|]. split; [done|]. split; [by rewrite Hs|].
    split.
    { rewrite Hy, Hsync. cbn [fmap list_fmap]. done. }
    intros ev Hev. destruct (He ev Hev) as [Hin|[Hin Hw]].
    + apply elem_of_app in Hin as [Hin|Hin]; [by left|].
      apply list_elem_of_singleton in Hin as ->. right.
      cbn [ev_micro_step ev_model]. split; [apply elem_of_cons; by left|].
      intros Hd. unfold m'. rewrite Hd. by rewrite lookup_insert_eq.
    + right. split; [apply elem_of_cons; by right|done].
Qed.

End Window.

End TrainFacts.

Module TrainClaims.

Import Train TrainFacts.

(** C6: the start-up check returns [grad_accum_steps] exactly when
    [B * T * world_size] is non-zero and divides [total_batch_size]
    without remainder, and then
    [B * T * world_size * grad_accum_steps = total_batch_size]; with a
    non-zero product and a remainder it raises [AssertionError] (with a
    zero product the modulo itself raises), and nothing catches either.
    The constants of the script with one process give 8. *)
Theorem C6_divisibility_check (total B T ws : Z) :
  let d := (B * T * ws)%Z in
  ((exists g, grad_accum_steps total B T ws = Ok g)
   <-> d <> 0%Z /\ (total mod d = 0)%Z) /\
  (d <> 0%Z ->
   (grad_accum_steps total B T ws = Raise AssertionError
    <-> (total mod d <> 0)%Z)) /\
  (d = 0%Z -> grad_accum_steps total B T ws = Raise ZeroDivisionError) /\
  (forall g, grad_accum_steps total B T ws = Ok g ->
     (B * T * ws * g = total)%Z) /\
  grad_accum_steps total_batch_size Train.B Train.T 1 = Ok 8%Z.
Proof.
  intros d. rewrite grad_accum_steps_cases. fold d.
  destruct (Z.eqb_spec d 0) as [Hd|Hd];
    [|destruct (Z.eqb_spec (total mod d) 0) as [Hm|Hm]].
  - split; [split; [by intros [g ?]|tauto]|].
    split; [tauto|]. split; [done|]. split; [done|]. reflexivity.
  - split; [split; [tauto|eauto]|].
    split; [intros _; split; [done|tauto]|]. split; [tauto|].
    split; [|reflexivity].
    intros g [= <-]. pose proof (Z.div_mod total d Hd). lia.
  - split; [split; [by intros [g ?]|tauto]|].
    split; [tauto|]. split; [tauto|]. split; [done|]. reflexivity.
Qed.

(** C6 at the constants of the script and two processes. *)
Lemma C6_witness : (64 * 1024 * 2 * 4 = 524288)%Z.
Proof.
  exact (proj1 (proj2 (proj2 (proj2
    (C6_divisibility_check 524288 64 1024 2)))) 4%Z eq_refl).
Defined.

(** C7: over the reals, with [grad_accum_steps > 0], every micro-step
    hands [backward] its loss divided by [grad_accum_steps], and the
    [loss_accum] the window leaves is the sum of these scaled losses,
    which is the arithmetic mean of the unscaled micro-losses. *)
Theorem C7_loss_accum_is_the_mean_micro_loss
    (ddp : bool) (gas : Z) (forward_loss : Z -> R)
    (model0 : gmap string bool) (Hgas : (0 < gas)%Z) :
  let st := accumulate ddp gas forward_loss model0 in
  let scaled := fun i => (forward_loss i / IZR gas)%R in
  ev_micro_step <$> backward_log st = Num.range gas /\
  ev_loss <$> backward_log st = scaled <$> Num.range gas /\
  loss_accum st = Num.Rsum (scaled <$> Num.range gas) /\
  loss_accum st
  = (Num.Rsum (forward_loss <$> Num.range gas) / IZR gas)%R /\
  length (Num.range gas) = Z.to_nat gas /\
  (IZR gas = INR (length (Num.range gas)) /\ IZR gas <> 0)%R.
Proof.
  intros st scaled. unfold st, accumulate.
  destruct (foldl_body ddp gas forward_loss (Num.range gas)
              (mk_state 0%R model0 [])) as (Ha & Hm & Hl & _).
  cbn zeta in *. cbn [loss_accum backward_log fmap list_fmap app] in *.
  split; [done|]. split; [done|].
  split; [rewrite Ha; unfold scaled; lra|].
  split; [rewrite Ha, Rsum_scaled; lra|].
  assert (Hlen : length (Num.range gas) = Z.to_nat gas).
  { unfold Num.range. by rewrite length_fmap, length_seq. }
  split; [done|]. rewrite Hlen, INR_IZR_INZ, Z2Nat.id by lia.
  split; [done|]. apply not_0_IZR. lia.
Qed.

(** C7 for two micro-steps with losses 3 and 5: the mean is 4. *)
Lemma C7_witness :
  loss_accum (accumulate false 2 (fun i => if (i =? 0)%Z then 3%R else 5%R) ∅)
  = ((3 + (5 + 0)) / 2)%R.
Proof.
  exact (proj1 (proj2 (proj2 (proj2
    (C7_loss_accum_is_the_mean_micro_loss false 2
       (fun i => if (i =? 0)%Z then 3%R else 5%R) ∅ ltac:(reflexivity)))))).
Defined.

(** C8 (the code departs from it): in DDP mode the loop assigns
    [micro_step == grad_accum_steps - 1] to an attribute named
    [required_backward_grad_sync]; the attribute that gates the gradient
    all-reduce, [require_backward_grad_sync], is never written and keeps
    the value [True] it got when the model was wrapped.  So every
    [backward()] of the window runs the collective reduction.  With eight
    micro-steps the intended pattern is seven unsynchronised passes and a
    synchronised last one; the code synchronises all eight. *)
Theorem C8_every_backward_synchronises (gas : Z) (forward_loss : Z -> R) :
  let st := accumulate true gas forward_loss DDP in
  ev_micro_step <$> backward_log st = Num.range gas /\
  ev_synced <$> backward_log st = (fun _ => true) <$> Num.range gas /\
  (forall ev, ev ∈ backward_log st ->
     ev_model ev !! "required_backward_grad_sync"%string
     = Some (bool_decide (ev_micro_step ev = gas - 1)%Z)) /\
  model st !! "require_backward_grad_sync"%string = Some true /\
  ((fun _ => true) <$> Num.range 8
   = [true; true; true; true; true; true; true; true] /\
   (fun i => bool_decide (i = 8 - 1)%Z) <$> Num.range 8
   = [false; false; false; false; false; false; false; true]).
Proof.
  intros st. unfold st, accumulate.
  destruct (foldl_body true gas forward_loss (Num.range gas)
              (mk_state 0%R DDP [])) as (_ & Hm & _ & Hs & Hy & He).
  cbn zeta in *. cbn [backward_log model fmap list_fmap app] in *.
  split; [done|]. split; [by rewrite Hy|].
  split.
  { intros ev Hev. destruct (He ev Hev) as [Hin|[_ Hw]]; [|by apply Hw].
    by apply elem_of_nil in Hin. }
  split; [by rewrite Hs|]. split; reflexivity.
Qed.

End TrainClaims.

(** ** The benchmark scorer *)

Module ScorerFacts.

Import HellaSwag.
Local Open Scope R_scope.

(** *** [argmin] returns the first index of a least element. *)

Lemma argmin_from_spec (l pre : list R) (best : R) (bi : nat) :
  pre !! bi = Some best ->
  (forall j b, pre !! j = Some b -> best <= b) ->
  (forall j b, (j < bi)%nat -> pre !! j = Some b -> best < b) ->
  exists a,
    (pre ++ l) !! argmin_from best bi (length pre) l = Some a /\
    (forall j b, (pre ++ l) !! j = Some b -> a <= b) /\
    (forall j b, (j < argmin_from best bi (length pre) l)%nat ->
                 (pre ++ l) !! j = Some b -> a < b).
Proof.
  revert pre best bi.
  induction l as [|v l IH]; intros pre best bi Hbi Hmin Hfirst;
    cbn [argmin_from].
  - rewrite app_nil_r. eauto.
  - pose proof (lookup_lt_Some _ _ _ Hbi) as Hlt.
    assert (Hlen : length (pre ++ [v]) = S (length pre)).
    { rewrite length_app. cbn [length]. lia. }
    assert (Happ : (pre ++ [v]) ++ l = pre ++ v :: l)
      by (by rewrite <- app_assoc).
    unfold Num.Rltb. destruct (Rlt_dec v best) as [Hv|Hv].
    + specialize (IH (pre ++ [v]) v (length pre)).
      rewrite Hlen, Happ in IH. apply IH.
      * rewrite lookup_app_r by lia. by rewrite Nat.sub_diag.
      * intros j b [Hj|[_ Hj]]%lookup_app_Some.
        -- specialize (Hmin j b Hj). lra.
        -- apply list_lookup_singleton_Some in Hj as [_ <-]. lra.
      * intros j b Hj Hjb.
        rewrite lookup_app_l in Hjb by lia.
        specialize (Hmin j b Hjb). lra.
    + specialize (IH (pre ++ [v]) best bi).
      rewrite Hlen, Happ in IH. apply IH.
      * by apply lookup_app_l_Some.
      * intros j b [Hj|[_ Hj]]%lookup_app_Some.
        -- by apply (Hmin j b).
        -- apply list_lookup_singleton_Some in Hj as [_ <-]. lra.
      * intros j b Hj Hjb. rewrite lookup_app_l in Hjb by lia.
        by apply (Hfirst j b).
Qed.

Lemma argmin_spec (l : list R) :
  l <> [] ->
  exists i a,
    argmin l = Ok i /\ l !! i = Some a /\
    (forall j b, l !! j = Some b -> a <= b) /\
    (forall j b, (j < i)%nat -> l !! j = Some b -> a < b).
Proof.
  destruct l as [|v l]; [done|]. intros _. cbn [argmin].
  destruct (argmin_from_spec l [v] v 0%nat) as (a & Ha & Hmin & Hfirst).
  - done.
  - intros j b Hj. apply list_lookup_singleton_Some in Hj as [_ <-]. lra.
  - intros j b Hj. lia.
  - exists (argmin_from v 0%nat 1%nat l), a. done.
Qed.

(** *** The masked sum and the count of ones. *)

Lemma masked_sum (losses : list R) (m : list Z) :
  Forall binary m ->
  Num.Rsum (zip_with (fun l b => l * IZR b) losses m)
  = sum_where_masked losses m.
Proof.
  unfold Num.Rsum. revert m.
  induction losses as [|l losses IH]; intros m Hm; [done|].
  destruct m as [|b m]; [done|].
  apply Forall_cons in Hm as [Hb Hm].
  cbn [zip_with foldr sum_where_masked]. rewrite (IH m Hm).
  destruct Hb as [-> | ->]; cbn [Z.eqb Pos.eqb]; lra.
Qed.

Lemma sum_is_count (m : list Z) :
  Forall binary m -> IZR (Num.Zsum m) = INR (count_ones m).
Proof.
  unfold Num.Zsum, count_ones.
  induction m as [|b m IH]; intros Hm; [done|].
  apply Forall_cons in Hm as [Hb Hm]. cbn [foldr].
  rewrite plus_IZR, (IH Hm).
  destruct Hb as [-> | ->].
  - rewrite filter_cons_False by done. lra.
  - rewrite filter_cons_True by done. cbn [length]. rewrite S_INR. lra.
Qed.

(** *** The flattened cross-entropy, row by row. *)

Lemma cross_entropy_at_valid (scores : list R) (tok : Z) :
  valid_target scores tok ->
  cross_entropy_at scores tok = Ok (nll scores (Z.to_nat tok)).
Proof.
  intros [H0 H1]. unfold cross_entropy_at.
  destruct (Z.eqb_spec tok (-100)); [lia|].
  destruct (Z.leb_spec 0 tok); [|lia].
  destruct (Z.ltb_spec tok (Z.of_nat (length scores))); [done|lia].
Qed.

Lemma cross_entropy_valid (input : list (list R)) (target : list Z) :
  Forall2 valid_target input target ->
  cross_entropy input target
  = Ok (zip_with (fun s tok => nll s (Z.to_nat tok)) input target).
Proof.
  induction 1 as [|s tok input target Hv _ IH]; [done|].
  cbn [cross_entropy]. rewrite (cross_entropy_at_valid _ _ Hv), IH. done.
Qed.

Lemma flattened_rows (tokens : list (list Z)) (logits : list (list (list R))) :
  Forall2 (fun toks scores =>
             Forall2 valid_target (but_last scores) (from_1 toks))
          tokens logits ->
  Forall2 valid_target (concat (but_last <$> logits))
                       (concat (from_1 <$> tokens)) /\
  zip_with (fun s tok => nll s (Z.to_nat tok))
           (concat (but_last <$> logits)) (concat (from_1 <$> tokens))
  = concat (zip_with position_losses tokens logits).
Proof.
  induction 1 as [|toks scores tokens logits Hrow _ [IHv IHz]].
  - split; [constructor|done].
  - cbn [fmap list_fmap concat zip_with]. split.
    + by apply Forall2_app.
    + rewrite zip_with_app by (by apply Forall2_length in Hrow).
      by rewrite IHz.
Qed.

Lemma rows_concat {A} (w : nat) (rows : list (list A)) :
  Forall (fun r => length r = w) rows ->
  Tensor.rows w (length rows) (concat rows) = rows.
Proof.
  induction 1 as [|r rows Hr _ IH]; [done|].
  cbn [length concat Tensor.rows].
  rewrite take_app_length' by done. rewrite drop_app_length' by done.
  by rewrite IH.
Qed.

Lemma length_concat_rows {A} (w : nat) (rows : list (list A)) :
  Forall (fun r => length r = w) rows ->
  length (concat rows) = (length rows * w)%nat.
Proof.
  induction 1 as [|r rows Hr _ IH]; [done|].
  cbn [length concat]. rewrite length_app, IH, Hr. lia.
Qed.

Lemma view_rows_concat {A} (w : nat) (rows : list (list A)) :
  rows <> [] -> (0 < w)%nat ->
  Forall (fun r => length r = w) rows ->
  view_rows (concat rows) (length rows) = Ok rows.
Proof.
  intros Hne Hpos Hw. unfold view_rows.
  assert (length rows <> 0%nat) as Hn by (by destruct rows).
  destruct (Nat.eqb_spec (length rows) 0); [done|].
  rewrite (length_concat_rows w) by done.
  destruct (Nat.eqb_spec (length rows * w) 0); [nia|].
  rewrite (Nat.mul_comm (length rows) w), Nat.Div0.mod_mul, Nat.eqb_refl.
  rewrite Nat.div_mul by done. by rewrite rows_concat.
Qed.

Lemma length_position_losses (toks : list Z) (scores : list (list R)) (T : nat) :
  length toks = T -> length scores = T ->
  length (position_losses toks scores) = (T - 1)%nat.
Proof.
  intros Ht Hs. unfold position_losses.
  rewrite length_zip_with, length_but_last, length_from_1. lia.
Qed.

Lemma averages_agree (tokens mask : list (list Z))
    (logits : list (list (list R))) :
  length mask = length tokens -> length logits = length tokens ->
  Forall (Forall binary) mask ->
  zip_with Rdiv
    (Num.Rsum <$> zip_with (zip_with (fun l m => l * IZR m))
                           (zip_with position_losses tokens logits)
                           (from_1 <$> mask))
    ((fun m => IZR (Num.Zsum m)) <$> (from_1 <$> mask))
  = spec_average_losses tokens mask logits.
Proof.
  unfold spec_average_losses. revert mask logits.
  induction tokens as [|toks tokens IH]; intros mask logits Hm Hl Hb.
  { by destruct mask. }
  destruct mask as [|msk mask]; [done|]. destruct logits as [|scores logits]; [done|].
  apply Forall_cons in Hb as [Hb Hbs].
  cbn [zip_with fmap list_fmap zip]. f_equal.
  - unfold spec_average_loss.
    assert (Forall binary (from_1 msk)) by (by apply Forall_drop).
    by rewrite masked_sum, sum_is_count.
  - apply IH; cbn [length] in *; (lia || done).
Qed.

(** [avg_loss] computes, for every row, the average of the specification. *)
Lemma avg_loss_refines (tokens mask : list (list Z))
    (logits : list (list (list R))) :
  rendered tokens mask logits ->
  avg_loss tokens mask logits
  = Ok (spec_average_losses tokens mask logits).
Proof.
  intros [Hne Hm Hl (T & Ht & Hmw & Hlw) Hcls Hbin Hcount].
  assert (HT : (0 < T - 1)%nat).
  { destruct tokens as [|toks tokens]; [done|].
    destruct mask as [|msk mask]; [done|].
    apply Forall_cons in Hmw as [Hw _]. apply Forall_cons in Hcount as [Hc _].
    unfold count_ones in Hc.
    pose proof (length_filter (fun b => b = 1%Z) (from_1 msk)) as Hf.
    rewrite length_from_1 in Hf. lia. }
  unfold avg_loss.
  destruct (flattened_rows tokens logits Hcls) as [Hv Hz].
  rewrite (cross_entropy_valid _ _ Hv), Hz. cbn [mbind result_bind].
  assert (Hrows : length (zip_with position_losses tokens logits)
                  = length tokens).
  { rewrite length_zip_with. lia. }
  rewrite <- Hrows at 1.
  rewrite (view_rows_concat (T - 1)).
  - cbn [mbind result_bind]. f_equal. by apply averages_agree.
  - intros Hnil. rewrite Hnil in Hrows. by destruct tokens.
  - exact HT.
  - apply Forall_forall. intros r [i Hi]%list_elem_of_lookup_1.
    apply lookup_zip_with_Some in Hi as (toks & scores & -> & Htk & Hsc).
    apply length_position_losses.
    + by apply (Forall_lookup_1 _ _ _ _ Ht Htk).
    + by apply (Forall_lookup_1 _ _ _ _ Hlw Hsc).
Qed.

End ScorerFacts.

Module ScorerClaims.

Import HellaSwag ScorerFacts.
Local Open Scope R_scope.

(** C9: on a rendered example, [get_most_likely_row] returns the index of
    the first row whose average loss is least, where -- over the reals --
    the average of a row is the one the specification describes: position
    [t]'s scores are matched with token [t+1], the losses at the positions
    whose shifted mask is 1 are summed and divided by the number of those
    positions.  In particular a row whose average is strictly below every
    other row's is the one returned. *)
Theorem C9_most_likely_row_minimises_the_average_loss
    (tokens mask : list (list Z)) (logits : list (list (list R)))
    (Hexample : rendered tokens mask logits) :
  let avgs := spec_average_losses tokens mask logits in
  avg_loss tokens mask logits = Ok avgs /\
  length avgs = length tokens /\
  exists i a,
    get_most_likely_row tokens mask logits = Ok i /\
    avgs !! i = Some a /\
    (forall j b, avgs !! j = Some b -> a <= b) /\
    (forall j b, (j < i)%nat -> avgs !! j = Some b -> a < b) /\
    (forall k c, avgs !! k = Some c ->
       (forall j b, j <> k -> avgs !! j = Some b -> c < b) -> i = k).
Proof.
  intros avgs.
  pose proof (avg_loss_refines tokens mask logits Hexample) as Havg.
  fold avgs in Havg.
  assert (Hlen : length avgs = length tokens).
  { unfold avgs, spec_average_losses.
    rewrite length_fmap, !length_zip_with.
    destruct Hexample as [_ Hm Hl _ _ _ _]. lia. }
  split; [done|]. split; [done|].
  destruct (argmin_spec avgs) as (i & a & Harg & Hi & Hmin & Hfirst).
  { intros Hnil. rewrite Hnil in Hlen.
    destruct Hexample as [Hne _ _ _ _ _ _]. by destruct tokens. }
  exists i, a. unfold get_most_likely_row. rewrite Havg.
  cbn [mbind result_bind].
  split; [done|]. split; [done|]. split; [done|]. split; [done|].
  intros k c Hk Hstrict.
  destruct (decide (i = k)) as [|Hne]; [done|].
  specialize (Hstrict i a Hne Hi). specialize (Hmin k c Hk). lra.
Qed.

(** C9 on a hand-made example of two candidates over two classes: both
    rows see the scores [1; 0] at the scored position; the first row's
    completion token is class 1 (score 0), the second row's is class 0
    (score 1), so the second row has the lower loss and is returned. *)
Lemma C9_witness :
  get_most_likely_row [[0; 1]; [0; 0]]%Z [[0; 1]; [0; 1]]%Z
    [[[1; 0]; [0; 0]]; [[1; 0]; [0; 0]]] = Ok 1%nat.
Proof.
  assert (Hex : rendered [[0; 1]; [0; 0]]%Z [[0; 1]; [0; 1]]%Z
                  [[[1; 0]; [0; 0]]; [[1; 0]; [0; 0]]]).
  { constructor.
    - done.
    - done.
    - done.
    - exists 2%nat. repeat constructor.
    - repeat constructor; cbn; lia.
    - repeat constructor; by right || by left.
    - repeat (apply Forall_cons; split); try apply Forall_nil; vm_compute; lia. }
  destruct (C9_most_likely_row_minimises_the_average_loss _ _ _ Hex)
    as (_ & _ & i & a & Hget & _ & _ & _ & Hdesigned).
  rewrite Hget. f_equal.
  eapply (Hdesigned 1%nat).
  - reflexivity.
  - intros [|[|j]] b Hj Hb; [|done|done].
    injection Hb as <-. unfold spec_average_loss, position_losses, nll.
    cbn [but_last from_1 take drop length Nat.sub zip_with nth fmap list_fmap
         Num.Rsum foldr sum_where_masked Z.eqb Pos.eqb count_ones filter
         list_filter].
    change (Z.to_nat 0) with 0%nat. change (Z.to_nat 1) with 1%nat.
    rewrite !decide_True by done. cbn [length INR nth].
    generalize (ln (exp 1 + (exp 0 + 0))). intros L. lra.
Defined.

End ScorerClaims.

(** ** The shapes of [GPT.forward] *)

Module ForwardFacts.

Import GPT.

Lemma linear3 (B T fan_in fan_out : nat) :
  linear fan_in fan_out [B; T; fan_in] = Ok [B; T; fan_out].
Proof. unfold linear. cbn [last]. by rewrite Nat.eqb_refl. Qed.

Lemma layer_norm3 (B T C : nat) :
  layer_norm C [B; T; C] = Ok [B; T; C].
Proof. unfold layer_norm. cbn [last]. by rewrite Nat.eqb_refl. Qed.

Lemma broadcast_same3 (B T C : nat) :
  broadcast [B; T; C] [B; T; C] = Ok [B; T; C].
Proof.
  unfold broadcast. cbn [reverse rev_append broadcast_rev].
  by rewrite !Nat.eqb_refl.
Qed.

Lemma broadcast_positions (B T C : nat) :
  broadcast [B; T; C] [T; C] = Ok [B; T; C].
Proof.
  unfold broadcast. cbn [reverse rev_append broadcast_rev].
  by rewrite !Nat.eqb_refl.
Qed.

Lemma broadcast_causal_mask (B nh T : nat) :
  broadcast [B; nh; T; T] [1; 1; T; T] = Ok [B; nh; T; T].
Proof.
  unfold broadcast. cbn [reverse rev_append broadcast_rev].
  rewrite !Nat.eqb_refl. cbn [mbind result_bind].
  destruct (Nat.eqb_spec nh 1) as [->|_], (Nat.eqb_spec B 1) as [->|_];
    by cbn.
Qed.

Lemma view_same_numel (x new : shape) :
  numel x = numel new -> view x new = Ok new.
Proof. intros H. unfold view. by rewrite H, Nat.eqb_refl. Qed.

Lemma matmul4 (B nh n m p : nat) :
  matmul [B; nh; n; m] [B; nh; m; p] = Ok [B; nh; n; p].
Proof. unfold matmul. by rewrite !Nat.eqb_refl. Qed.

Lemma chunk_count (C : nat) : 0 < C -> (3 * C + C - 1) / C = 3.
Proof.
  intros HC. symmetry. apply (Nat.div_unique _ _ 3 (C - 1)); lia.
Qed.

Lemma split3 (B T C : nat) :
  0 < C ->
  split C 2 [B; T; 3 * C] = Ok [[B; T; C]; [B; T; C]; [B; T; C]].
Proof.
  intros HC. unfold split. cbn [lookup list_lookup].
  destruct (Nat.eqb_spec C 0); [lia|].
  rewrite chunk_count by done. cbn [Nat.max seq fmap list_fmap].
  cbn [insert list_insert]. repeat f_equal; lia.
Qed.

Lemma forallb_in_range (num : nat) (l : list Z) :
  Forall (fun v => (0 <= v < Z.of_nat num)%Z) l ->
  forallb (fun v => (0 <=? v)%Z && (v <? Z.of_nat num)%Z) l = true.
Proof.
  induction 1 as [|v l [H0 H1] _ IH]; [done|]. cbn [forallb].
  rewrite IH. destruct (Z.leb_spec 0 v); [|lia].
  by destruct (Z.ltb_spec v (Z.of_nat num)); [|lia].
Qed.

Lemma embedding_in_range (num dim : nat) (idx : IntTensor) :
  Forall (fun v => (0 <= v < Z.of_nat num)%Z) (values idx) ->
  embedding num dim idx = Ok (dims idx ++ [dim]).
Proof. intros H. unfold embedding. by rewrite forallb_in_range. Qed.

Lemma arange_in_range (T num : nat) :
  T <= num ->
  Forall (fun v => (0 <= v < Z.of_nat num)%Z) (values (arange T)).
Proof.
  intros HT. cbn [arange values]. apply Forall_fmap, Forall_forall.
  intros k Hk%elem_of_seq. cbn. lia.
Qed.

Section WithConfig.

Variable config : GPTConfig.

Local Abbreviation C := (n_embd config).
Local Abbreviation nh := (n_head config).

(** What a successfully constructed attention module guarantees. *)
Lemma attention_init_Ok :
  attention_init config = Ok tt -> 0 < C ->
  0 < nh /\ C = nh * (C / nh) /\ 0 < C / nh.
Proof.
  unfold attention_init, Num.mod_. intros Hinit HC.
  destruct (Z.eqb_spec (Z.of_nat nh) 0) as [|Hnh]; [done|].
  cbn [mbind result_bind] in Hinit. unfold assert in Hinit.
  destruct (Z.eqb_spec (Z.of_nat C mod Z.of_nat nh) 0) as [Hmod|]; [|done].
  assert (Hpos : 0 < nh) by lia.
  rewrite <- Nat2Z.inj_mod in Hmod.
  assert (Hm : C mod nh = 0) by lia.
  pose proof (Nat.div_mod_eq C nh) as Hdiv. rewrite Hm in Hdiv.
  split; [done|]. split; [lia|].
  destruct (C / nh); lia.
Qed.

Section Constructed.

Variables B T : nat.
Hypothesis width : 0 < C.
Hypothesis constructed : attention_init config = Ok tt.

Local Abbreviation hs := (C / nh).

Lemma numel_heads : numel [B; T; C] = numel [B; T; nh; hs].
Proof using width constructed.
  destruct (attention_init_Ok constructed width) as (_ & HC & _).
  cbn [numel foldr]. rewrite HC at 1. lia.
Qed.

Lemma heads_shape :
  heads config [B; T; C]
  = Ok (B, T, C, [B; nh; T; hs], [B; nh; T; hs], [B; nh; T; hs]).
Proof using width constructed.
  destruct (attention_init_Ok constructed width) as (Hnh & _ & _).
  unfold heads. rewrite linear3. cbn [mbind result_bind].
  rewrite split3 by done. cbn [mbind result_bind unpack3].
  destruct (Nat.eqb_spec nh 0); [lia|].
  rewrite (view_same_numel _ _ numel_heads).
  by cbn.
Qed.

Lemma scores_shape :
  scores [B; nh; T; hs] [B; nh; T; hs] = Ok [B; nh; T; T].
Proof using width constructed.
  destruct (attention_init_Ok constructed width) as (_ & _ & Hhs).
  unfold scores, transpose_last2, transpose. cbn.
  rewrite !Nat.eqb_refl. cbn.
  destruct hs; [lia|done].
Qed.

Lemma sdpa_shape :
  scaled_dot_product_attention [B; nh; T; hs] [B; nh; T; hs]
    [B; nh; T; hs] = Ok [B; nh; T; hs].
Proof.
  unfold scaled_dot_product_attention, transpose_last2, transpose. cbn.
  rewrite !Nat.eqb_refl. cbn. by rewrite !Nat.eqb_refl.
Qed.

Lemma merge_heads_shape :
  merge_heads config B T C [B; nh; T; hs] = Ok [B; T; C].
Proof using width constructed.
  unfold merge_heads, transpose. cbn.
  rewrite (view_same_numel [B; T; nh; hs] [B; T; C])
    by (by rewrite numel_heads).
  cbn. apply linear3.
Qed.

Lemma attention_shape : attention config [B; T; C] = Ok [B; T; C].
Proof using width constructed.
  unfold attention. rewrite heads_shape. cbn [mbind result_bind].
  rewrite scores_shape. cbn [mbind result_bind].
  rewrite sdpa_shape. cbn [mbind result_bind].
  apply merge_heads_shape.
Qed.

Lemma attention_masked_shape :
  T <= block_size config ->
  attention_masked config [B; T; C] = Ok [B; T; C].
Proof using width constructed.
  intros HT. unfold attention_masked.
  rewrite heads_shape. cbn [mbind result_bind].
  rewrite scores_shape. cbn [mbind result_bind].
  rewrite Nat.min_l by done. unfold masked_fill.
  rewrite broadcast_causal_mask. cbn [mbind result_bind].
  rewrite bool_decide_eq_true_2 by done. cbn [mbind result_bind].
  rewrite matmul4. cbn [mbind result_bind].
  apply merge_heads_shape.
Qed.

Lemma mlp_shape : mlp config [B; T; C] = Ok [B; T; C].
Proof. unfold mlp. rewrite linear3. cbn. apply linear3. Qed.

Lemma block_shape (attn : shape -> result shape) :
  attn [B; T; C] = Ok [B; T; C] ->
  block config attn [B; T; C] = Ok [B; T; C].
Proof.
  intros Hattn. unfold block.
  rewrite layer_norm3. cbn [mbind result_bind].
  rewrite Hattn. cbn [mbind result_bind].
  rewrite broadcast_same3. cbn [mbind result_bind].
  rewrite layer_norm3. cbn [mbind result_bind].
  rewrite mlp_shape. cbn [mbind result_bind].
  apply broadcast_same3.
Qed.

Lemma blocks_shape (attn : shape -> result shape) (n : nat) :
  attn [B; T; C] = Ok [B; T; C] ->
  blocks config attn n [B; T; C] = Ok [B; T; C].
Proof.
  intros Hattn. induction n as [|n IH]; [done|].
  cbn [blocks]. by rewrite (block_shape attn Hattn).
Qed.

End Constructed.

(** The stack of blocks keeps the shape, for either attention. *)
Lemma stack_shape (attn : shape -> result shape) (B T : nat) :
  init config = Ok tt -> 0 < C ->
  (attention_init config = Ok tt -> attn [B; T; C] = Ok [B; T; C]) ->
  blocks config attn (n_layer config) [B; T; C] = Ok [B; T; C].
Proof.
  unfold init. intros Hinit HC Hattn.
  destruct (n_layer config) as [|n] eqn:Hn; [done|].
  rewrite <- Hn. apply blocks_shape. by apply Hattn.
Qed.

Lemma logits_of_too_long (attn : shape -> result shape) (idx : IntTensor)
    (B T : nat) :
  dims idx = [B; T] -> block_size config < T ->
  logits_of config attn idx = Raise AssertionError.
Proof.
  intros Hd HT. unfold logits_of. rewrite Hd. cbn [unpack2 mbind result_bind].
  by destruct (Nat.leb_spec T (block_size config)); [lia|].
Qed.

Lemma logits_of_shape (attn : shape -> result shape) (idx : IntTensor)
    (B T : nat) :
  dims idx = [B; T] -> T <= block_size config ->
  init config = Ok tt -> 0 < C ->
  Forall (fun v => (0 <= v < Z.of_nat (vocab_size config))%Z) (values idx) ->
  (attention_init config = Ok tt -> attn [B; T; C] = Ok [B; T; C]) ->
  logits_of config attn idx = Ok [B; T; vocab_size config].
Proof.
  intros Hd HT Hinit HC Htok Hattn. unfold logits_of.
  rewrite Hd. cbn [unpack2 mbind result_bind].
  destruct (Nat.leb_spec T (block_size config)); [|lia].
  cbn [assert mbind result_bind].
  rewrite (embedding_in_range _ _ (arange T)) by (by apply arange_in_range).
  cbn [mbind result_bind].
  rewrite (embedding_in_range _ _ idx) by done.
  rewrite Hd. cbn [mbind result_bind arange dims app].
  rewrite broadcast_positions. cbn [mbind result_bind].
  rewrite stack_shape by done. cbn [mbind result_bind].
  rewrite layer_norm3. cbn [mbind result_bind].
  apply linear3.
Qed.

End WithConfig.

End ForwardFacts.

Module ForwardClaims.

Import GPT ForwardFacts.

(** C10, as stated, fails on the code: a sequence no longer than the
    block size is not enough for logits.  On a constructed model of two
    layers, two heads, width 4, block size 4 and a vocabulary of 5, the
    input [[0; 5; 2]] of shape [(1, 3)] has [T = 3 <= block_size], and
    both [forward] methods raise [IndexError] at the token embedding,
    because the id 5 is not below [vocab_size]. *)
Lemma C10_counterexample_token_outside_vocabulary :
  let config := mk_config 4 5 2 2 4 in
  let idx := mk_int [1; 3] [0; 5; 2]%Z in
  init config = Ok tt /\
  dims idx = [1; 3] /\
  3 <= block_size config /\
  forward config idx None = Raise IndexError /\
  forward_train_gpt2 config idx = Raise IndexError /\
  forward config idx None <> Ok ([1; 3; vocab_size config], None).
Proof.
  cbv zeta. split; [reflexivity|]. split; [reflexivity|].
  split; [cbn; lia|].
  assert (Hraise : forward (mk_config 4 5 2 2 4)
                     (mk_int [1; 3] [0; 5; 2]%Z) None = Raise IndexError)
    by (by vm_compute).
  split; [exact Hraise|]. split; [by vm_compute|].
  rewrite Hraise. discriminate.
Qed.

(** C10: both [GPT.forward] methods raise [AssertionError] on every input
    of shape [(B, T)] with [T > block_size]; on a constructed model with
    a positive embedding width, every input of shape [(B, T)] with
    [T <= block_size] whose token ids lie in the vocabulary yields logits
    of shape [(B, T, vocab_size)] (with a scalar loss when well-shaped
    targets are passed). *)
Theorem C10_forward_checks_length_and_shapes_logits
    (config : GPTConfig) (idx : IntTensor) (B T : nat)
    (Hdims : dims idx = [B; T]) :
  (block_size config < T ->
   (forall targets, forward config idx targets = Raise AssertionError) /\
   forward_train_gpt2 config idx = Raise AssertionError) /\
  (T <= block_size config ->
   init config = Ok tt ->
   0 < n_embd config ->
   Forall (fun v => (0 <= v < Z.of_nat (vocab_size config))%Z) (values idx) ->
   forward config idx None = Ok ([B; T; vocab_size config], None) /\
   forward_train_gpt2 config idx = Ok [B; T; vocab_size config] /\
   (forall targets,
      dims targets = [B; T] ->
      Forall (fun v => (0 <= v < Z.of_nat (vocab_size config))%Z)
             (values targets) ->
      0 < vocab_size config ->
      forward config idx (Some targets)
      = Ok ([B; T; vocab_size config], Some []))).
Proof.
  split.
  - intros HT. unfold forward, forward_train_gpt2.
    by rewrite !(logits_of_too_long config _ idx B T Hdims HT).
  - intros HT Hinit HC Htok.
    assert (Hlog : logits_of config (attention config) idx
                   = Ok [B; T; vocab_size config]).
    { apply logits_of_shape; try done. intros Ha. by apply attention_shape. }
    split; [unfold forward; by rewrite Hlog|].
    split.
    { unfold forward_train_gpt2. apply logits_of_shape; try done.
      intros Ha. by apply attention_masked_shape. }
    intros targets Hd Hv HV. unfold forward. rewrite Hlog.
    cbn [mbind result_bind]. unfold loss_of. cbn [last].
    rewrite Hd.
    assert (Hn : numel [B; T; vocab_size config]
                 = numel [B; T] * vocab_size config)
      by (cbn [numel foldr]; lia).
    rewrite Hn, Nat.Div0.mod_mul, Nat.div_mul by lia.
    rewrite Nat.eqb_refl.
    destruct (Nat.eqb_spec (vocab_size config) 0); [lia|].
    cbn [orb negb].
    assert (Hall : forallb (fun t => (t =? -100)%Z ||
                     ((0 <=? t)%Z && (t <? Z.of_nat (vocab_size config))%Z))
                     (values targets) = true).
    { clear -Hv. induction Hv as [|v l [H0 H1] _ IH]; [done|].
      cbn [forallb]. rewrite IH.
      destruct (Z.leb_spec 0 v); [|lia].
      destruct (Z.ltb_spec v (Z.of_nat (vocab_size config))); [|lia].
      by rewrite orb_true_r. }
    by rewrite Hall, Nat.eqb_refl.
Qed.

(** C10 on a model of two layers, two heads, width 4, block size 4 and a
    vocabulary of 5, fed one sequence of three tokens. *)
Lemma C10_witness :
  forward (mk_config 4 5 2 2 4) (mk_int [1; 3] [0; 4; 2]%Z) None
  = Ok ([1; 3; 5], None).
Proof.
  refine (proj1 (proj2
    (C10_forward_checks_length_and_shapes_logits
       (mk_config 4 5 2 2 4) (mk_int [1; 3] [0; 4; 2]%Z) 1 3 eq_refl)
    _ eq_refl _ _)).
  - cbn. lia.
  - cbn. lia.
  - repeat constructor; cbn; lia.
Defined.

End ForwardClaims.

(** ** More on the learning-rate schedule *)

Module ScheduleMore.

Import Schedule ScheduleFacts.
Local Open Scope R_scope.

Lemma coeff_in_unit (x : R) : 0 <= 0.5 * (1.0 + cos x) <= 1.
Proof. pose proof (COS_bound x) as [Hlo Hhi]. lra. Qed.

Lemma cosine_bounds (max_lr r : R) :
  0 <= max_lr -> min_lr max_lr <= cosine max_lr r <= max_lr.
Proof.
  intros Hmax. unfold cosine, min_lr.
  pose proof (coeff_in_unit (PI * r)) as [Hlo Hhi].
  set (c := 0.5 * (1.0 + cos (PI * r))) in *. split; nra.
Qed.

Lemma cosine_decreasing (max_lr r r' : R) :
  0 <= max_lr -> 0 <= r -> r <= r' -> r' <= 1 ->
  cosine max_lr r' <= cosine max_lr r.
Proof.
  intros Hmax H0 Hrr H1. unfold cosine, min_lr.
  pose proof PI_RGT_0 as Hpi.
  assert (Hcos : cos (PI * r') <= cos (PI * r)).
  { apply cos_decr_1; nra. }
  nra.
Qed.

(** X1: with [0 <= max_lr] and [0 < warmup_steps < max_steps], [get_lr]
    returns a value for every integer step; from step 0 on the value lies
    in [0, max_lr], and from [warmup_steps] on it never falls below
    [min_lr]. *)
Theorem get_lr_total_and_bounded (max_lr : R) (warmup_steps max_steps : Z)
    (max_nonneg : 0 <= max_lr)
    (warmup_pos : (0 < warmup_steps)%Z)
    (warmup_before_max : (warmup_steps < max_steps)%Z) (s : Z) :
  exists v, get_lr max_lr warmup_steps max_steps s = Ok v /\
            ((0 <= s)%Z -> 0 <= v <= max_lr) /\
            ((warmup_steps <= s)%Z -> min_lr max_lr <= v).
Proof.
  destruct (Z_lt_le_dec s warmup_steps) as [Hw|Hw].
  - eexists. split; [by apply get_lr_warmup|].
    split; [|lia]. intros Hs.
    pose proof (ratio_in_unit (s + 1) warmup_steps ltac:(lia) warmup_pos)
      as [Hlo Hhi].
    rewrite plus_IZR in Hlo, Hhi.
    replace (max_lr * (IZR s + 1) / IZR warmup_steps)
      with (max_lr * ((IZR s + 1) / IZR warmup_steps)) by (unfold Rdiv; ring).
    split; nra.
  - destruct (Z_lt_le_dec max_steps s) as [Hm|Hm].
    + eexists. split; [by apply get_lr_floor|]. unfold min_lr.
      split; [intros _; lra|intros _; lra].
    + destruct (get_lr_cosine max_lr warmup_steps max_steps
                  warmup_before_max s ltac:(lia)) as (_ & _ & ->).
      eexists. split; [done|].
      pose proof (cosine_bounds max_lr
        (IZR (s - warmup_steps) / IZR (max_steps - warmup_steps))
        max_nonneg) as [Hlo Hhi].
      unfold min_lr in *. split; intros _; [lra|done].
Qed.

(** X1 at the constants of the script and step 1000. *)
Lemma get_lr_total_and_bounded_witness :
  exists v, get_lr Schedule.max_lr Schedule.warmup_steps Schedule.max_steps
                   1000 = Ok v /\ 0 <= v <= Schedule.max_lr.
Proof.
  destruct (get_lr_total_and_bounded Schedule.max_lr Schedule.warmup_steps
              Schedule.max_steps ltac:(unfold Schedule.max_lr; lra)
              ltac:(reflexivity) ltac:(reflexivity) 1000)
    as (v & Hv & Hb & _).
  exists v. split; [exact Hv|]. apply Hb. lia.
Defined.

(** X2: with [0 <= max_lr] and [0 < warmup_steps < max_steps] the
    schedule rises during warm-up and never rises afterwards: for steps
    [s <= s'], the rate at [s'] is at least the rate at [s] when both lie
    in the warm-up, and at most the rate at [s] when both lie at or after
    [warmup_steps]. *)
Theorem get_lr_rises_then_decays (max_lr : R) (warmup_steps max_steps : Z)
    (max_nonneg : 0 <= max_lr)
    (warmup_pos : (0 < warmup_steps)%Z)
    (warmup_before_max : (warmup_steps < max_steps)%Z)
    (s s' : Z) (v v' : R)
    (Hs : get_lr max_lr warmup_steps max_steps s = Ok v)
    (Hs' : get_lr max_lr warmup_steps max_steps s' = Ok v')
    (Hle : (s <= s')%Z) :
  ((s' < warmup_steps)%Z -> v <= v') /\
  ((warmup_steps <= s)%Z -> v' <= v).
Proof.
  split.
  - intros Hw.
    rewrite get_lr_warmup in Hs, Hs' by (done || lia).
    injection Hs as <-. injection Hs' as <-.
    apply IZR_le in Hle. apply IZR_lt in warmup_pos.
    pose proof (Rinv_0_lt_compat _ warmup_pos) as Hinv.
    unfold Rdiv. apply Rmult_le_compat_r; [lra|].
    apply Rmult_le_compat_l; lra.
  - intros Hw.
    destruct (Z_lt_le_dec max_steps s) as [Hm|Hm].
    + rewrite get_lr_floor in Hs, Hs' by (done || lia).
      injection Hs as <-. injection Hs' as <-. lra.
    + destruct (get_lr_cosine max_lr warmup_steps max_steps
                  warmup_before_max s ltac:(lia)) as (_ & [Hr0 Hr1] & Hv).
      rewrite Hv in Hs. injection Hs as <-.
      destruct (Z_lt_le_dec max_steps s') as [Hm'|Hm'].
      * rewrite get_lr_floor in Hs' by done. injection Hs' as <-.
        by apply cosine_bounds.
      * destruct (get_lr_cosine max_lr warmup_steps max_steps
                    warmup_before_max s' ltac:(lia)) as (_ & [Hr0' Hr1'] & Hv').
        rewrite Hv' in Hs'. injection Hs' as <-.
        apply cosine_decreasing; try done.
        assert (Hd : 0 < IZR (max_steps - warmup_steps))
          by (apply IZR_lt; lia).
        pose proof (Rinv_0_lt_compat _ Hd) as Hinv.
        assert (IZR (s - warmup_steps) <= IZR (s' - warmup_steps))
          by (apply IZR_le; lia).
        unfold Rdiv. nra.
Qed.

(** X2 between the steps 1000 and 2000 of the script's schedule. *)
Lemma get_lr_rises_then_decays_witness :
  cosine Schedule.max_lr (IZR (2000 - 715) / IZR (19073 * 4 - 715))
  <= cosine Schedule.max_lr (IZR (1000 - 715) / IZR (19073 * 4 - 715)).
Proof.
  assert (Hm : (Schedule.warmup_steps < Schedule.max_steps)%Z)
    by reflexivity.
  refine (proj2 (get_lr_rises_then_decays Schedule.max_lr
            Schedule.warmup_steps Schedule.max_steps
            ltac:(unfold Schedule.max_lr; lra)
            ltac:(reflexivity) Hm 1000 2000 _ _
            (proj2 (proj2 (get_lr_cosine Schedule.max_lr
               Schedule.warmup_steps Schedule.max_steps Hm 1000
               ltac:(unfold Schedule.warmup_steps, Schedule.max_steps; lia))))
            (proj2 (proj2 (get_lr_cosine Schedule.max_lr
               Schedule.warmup_steps Schedule.max_steps Hm 2000
               ltac:(unfold Schedule.warmup_steps, Schedule.max_steps; lia))))
            ltac:(lia)) _).
  unfold Schedule.warmup_steps. lia.
Defined.

End ScheduleMore.

(** ** More on the data feeder *)

Module FeederMore.

Import DataLoaderLite FeederFacts FeederState.

Section WithFiles.

Variable np_load : string -> result (list Z).

Lemma reset_Ok_inv (self self' : t) :
  reset np_load self = Ok self' ->
  same_config self' self /\ coherent np_load self' /\
  current_shard self' = 0 /\ current_position self' = base self.
Proof.
  unfold reset. intros H.
  apply bind_Ok_inv in H as (f & Hf & H).
  apply bind_Ok_inv in H as (toks & Htoks & H). injection H as <-.
  unfold getitem in Hf. destruct (shards self !! 0) as [f'|] eqn:Hlk; [|done].
  injection Hf as ->.
  split; [done|]. split; [|done].
  unfold coherent, base, stride. cbn.
  split; [by apply lookup_lt_Some in Hlk|].
  split; [by exists f|]. exists 0. lia.
Qed.

Lemma advance_coherent (self self' : t) :
  coherent np_load self -> advance np_load self = Ok self' ->
  same_config self' self /\ coherent np_load self'.
Proof.
  intros (Hcur & Hfile & j & Hpos) Hadv.
  pose proof (advance_config np_load self self' Hadv)
    as (HB & HT & Hr & Hn & Hs).
  pose proof (advance_Ok_inv np_load self self' Hadv) as Hcase.
  cbn zeta in Hcase.
  split; [done|]. unfold coherent, base, stride in *.
  rewrite HB, HT, Hr, Hn, Hs.
  destruct (_ <? _).
  - destruct Hcase as (_ & Hlt & Hf & Hp).
    split; [done|]. split; [done|]. exists 0. lia.
  - destruct Hcase as (-> & -> & ->).
    split; [done|]. split; [done|]. exists (S j). lia.
Qed.

Lemma after_coherent (k : nat) (self self' : t) :
  coherent np_load self -> after np_load k self = Ok self' ->
  same_config self' self /\ coherent np_load self'.
Proof.
  revert self. induction k as [|k IH]; intros self Hc Hk.
  - injection Hk as <-. by split.
  - cbn [after] in Hk. apply bind_Ok_inv in Hk as ([[x y] s1] & Hnb & Hk).
    apply next_batch_Ok_inv in Hnb as [_ Hadv].
    destruct (advance_coherent self s1 Hc Hadv) as [Hcfg1 Hc1].
    destruct (IH s1 Hc1 Hk) as [Hcfg Hc'].
    split; [|done]. unfold same_config in *. intuition congruence.
Qed.

Lemma run_coherent (k : nat) (self0 self : t) :
  reset np_load self0 ≫= after np_load k = Ok self ->
  same_config self self0 /\ coherent np_load self.
Proof.
  intros Hrun.
  apply bind_Ok_inv in Hrun as (s1 & Hreset & Hafter).
  apply reset_Ok_inv in Hreset as (Hcfg1 & Hc1 & _).
  destruct (after_coherent k s1 self Hc1 Hafter) as [Hcfg Hc].
  split; [|done]. unfold same_config in *. intuition congruence.
Qed.

(** A feeder whose window fits, over long shards, serves the call and is
    left with a window that fits again. *)
Lemma next_batch_fits (self0 self : t) :
  process_rank self0 < num_processes self0 ->
  long_shards np_load self0 ->
  same_config self self0 -> coherent np_load self -> fits self ->
  exists x y self',
    next_batch np_load self = Ok (x, y, self') /\
    same_config self' self0 /\ coherent np_load self' /\ fits self'.
Proof.
  intros Hrank Hlong Hcfg Hc Hfit.
  destruct (batch_Ok self Hfit) as (x & y & Hb).
  pose proof Hcfg as (HB & HT & Hr & Hn & Hs).
  assert (Hbt : B self * T self * (process_rank self + 1)
                <= B self * T self * num_processes self).
  { apply Nat.mul_le_mono_l. lia. }
  assert (Hadv : exists self', advance np_load self = Ok self' /\ fits self').
  { destruct (Nat.lt_ge_cases (length (tokens self))
                (current_position self + stride self + (stride self + 1)))
      as [Hwrap|Hstay].
    - destruct Hc as (Hcur & _ & _).
      set (shard := (current_shard self + 1) mod length (shards self)).
      assert (Hshard : shard < length (shards self))
        by (apply Nat.mod_upper_bound; lia).
      destruct (lookup_lt_is_Some_2 _ _ Hshard) as [f Hf].
      unfold long_shards in Hlong. rewrite <- Hs in Hlong.
      destruct (Forall_lookup_1 _ _ _ _ Hlong Hf) as (toks & Hload & Hlen).
      eexists. split; [by apply (advance_wrap np_load self f toks)|].
      unfold fits, stride in *. cbn. rewrite <- HB, <- HT, <- Hn in Hlen. lia.
    - eexists. split; [by apply advance_no_wrap|].
      unfold fits, stride in *. cbn. lia. }
  destruct Hadv as (self' & Hadv & Hfit').
  destruct (advance_coherent self self' Hc Hadv) as [Hcfg' Hc'].
  exists x, y, self'. unfold next_batch. rewrite Hb. cbn [mbind result_bind].
  rewrite Hadv. cbn [mbind result_bind].
  split; [done|]. split; [|done].
  unfold same_config in *. intuition congruence.
Qed.

End WithFiles.

(** X3: whatever state [reset()] starts from, after [reset()] and any
    number of successful [next_batch()] calls the feeder still has the
    configuration it was built with, its shard index is inside the shard
    list, the resident tokens are the contents of that shard's file, and
    the position is [B*T*process_rank] plus a whole number of strides
    [B*T*num_processes]. *)
Theorem feeder_stays_coherent (np_load : string -> result (list Z))
    (k : nat) (self0 self : t)
    (Hrun : reset np_load self0 ≫= after np_load k = Ok self) :
  same_config self self0 /\ coherent np_load self.
Proof. by apply (run_coherent np_load k). Qed.

(** X3 after three calls of the two-process example (the third call
    found the short shard and wrapped back to the long one). *)
Lemma feeder_stays_coherent_witness :
  coherent Example.np_load_short
    (mk 1 2 0 2 ["long"; "short"] 0 [0; 1; 2; 3; 4; 5; 6; 7; 8]%Z 0).
Proof.
  exact (proj2 (feeder_stays_coherent Example.np_load_short 3
                  Example.loader_short _ eq_refl)).
Defined.

(** X4: when the rank is below the number of processes, the shard list
    is not empty and every shard file loads and holds at least
    [B*T*num_processes + 1] tokens, [reset()] and every one of any number
    of following [next_batch()] calls succeed, and the feeder is left
    with a window that fits in the resident shard. *)
Theorem feeder_never_fails_on_long_shards
    (np_load : string -> result (list Z)) (k : nat) (self0 : t)
    (Hrank : process_rank self0 < num_processes self0)
    (Hshards : shards self0 <> [])
    (Hlong : long_shards np_load self0) :
  exists self,
    reset np_load self0 ≫= after np_load k = Ok self /\
    fits self /\
    exists out, reset_then_batches np_load k self0 = Ok out /\
                length out = k /\
                Forall (fun o => exists xy, o = Ok xy) out.
Proof.
  destruct (shards self0) as [|f0 fs] eqn:Hs; [done|].
  assert (Hf0 : shards self0 !! 0 = Some f0) by (by rewrite Hs).
  pose proof Hlong as Hlong'. unfold long_shards in Hlong'.
  destruct (Forall_lookup_1 _ _ _ _ Hlong' Hf0) as (toks & Hload & Hlen).
  assert (Hreset : exists s1, reset np_load self0 = Ok s1).
  { unfold reset, getitem. rewrite Hf0. cbn [mbind result_bind].
    unfold load_tokens. rewrite Hload. eauto. }
  destruct Hreset as (s1 & Hreset).
  destruct (reset_Ok_inv np_load self0 s1 Hreset) as (Hcfg1 & Hc1 & Hsh1 & Hp1).
  assert (Hfit1 : fits s1).
  { pose proof Hc1 as (_ & (f & Hf & Hl) & _).
    destruct Hcfg1 as (HB & HT & Hr & Hn & Hss).
    rewrite Hsh1, Hss, Hf0 in Hf. injection Hf as <-.
    rewrite Hload in Hl. injection Hl as Hl.
    unfold fits. rewrite Hp1, <- Hl, HB, HT. unfold base, stride in *.
    assert (B self0 * T self0 * (process_rank self0 + 1)
            <= B self0 * T self0 * num_processes self0)
      by (apply Nat.mul_le_mono_l; lia).
    lia. }
  unfold reset_then_batches. rewrite Hreset. cbn [mbind result_bind].
  clear Hreset Hsh1 Hp1 Hload Hlen Hf0 Hlong'.
  revert s1 Hcfg1 Hc1 Hfit1.
  induction k as [|k IH]; intros s1 Hcfg1 Hc1 Hfit1.
  - exists s1. split; [done|]. split; [done|]. exists []. by repeat split.
  - destruct (next_batch_fits np_load self0 s1 Hrank Hlong Hcfg1 Hc1 Hfit1)
      as (x & y & s2 & Hnb & Hcfg2 & Hc2 & Hfit2).
    destruct (IH s2 Hcfg2 Hc2 Hfit2)
      as (s & Hafter & Hfit & out & Hout & Hlen' & Hall).
    injection Hout as <-.
    exists s. cbn [after batches]. rewrite Hnb. cbn [mbind result_bind].
    split; [done|]. split; [done|].
    eexists. split; [done|]. cbn [length]. split; [by rewrite Hlen'|].
    constructor; [by eexists|done].
Qed.

(** X4 on the six shards of 1000 tokens, 200 calls. *)
Lemma feeder_never_fails_witness :
  exists self,
    reset Example.np_load Example.loader ≫= after Example.np_load 200
    = Ok self /\ fits self.
Proof.
  assert (Hrank : process_rank Example.loader < num_processes Example.loader)
    by (cbn; lia).
  assert (Hshards : shards Example.loader <> []) by discriminate.
  assert (Hlong : long_shards Example.np_load Example.loader).
  { repeat (apply Forall_cons; split;
      [eexists; split; [reflexivity|vm_compute; lia]|]).
    constructor. }
  destruct (feeder_never_fails_on_long_shards Example.np_load 200
              Example.loader Hrank Hshards Hlong)
    as (self & Hrun & Hfit & _).
  exists self. split; assumption.
Defined.

(** X5: two feeders built with the same [B], [T] and [num_processes] but
    different ranks below [num_processes] never stand on overlapping
    input windows: at any two moments after their [reset()], the index
    ranges [[position, position + B*T)] they would read as [x] are
    disjoint (for [B*T > 0], whichever shards they are in). *)
Theorem ranks_read_disjoint_windows (np_load : string -> result (list Z))
    (k1 k2 : nat) (a0 b0 a b : t)
    (HB : B a0 = B b0) (HT : T a0 = T b0)
    (Hn : num_processes a0 = num_processes b0)
    (Hra : process_rank a0 < num_processes a0)
    (Hrb : process_rank b0 < num_processes b0)
    (Hranks : process_rank a0 <> process_rank b0)
    (Hruna : reset np_load a0 ≫= after np_load k1 = Ok a)
    (Hrunb : reset np_load b0 ≫= after np_load k2 = Ok b) :
  current_position a + B a0 * T a0 <= current_position b \/
  current_position b + B a0 * T a0 <= current_position a.
Proof.
  destruct (run_coherent np_load k1 a0 a Hruna)
    as ((HBa & HTa & Hrka & Hna & _) & _ & _ & ja & Hpa).
  destruct (run_coherent np_load k2 b0 b Hrunb)
    as ((HBb & HTb & Hrkb & Hnb & _) & _ & _ & jb & Hpb).
  unfold base, stride in Hpa, Hpb.
  rewrite HBa, HTa, Hrka, Hna in Hpa. rewrite HBb, HTb, Hrkb, Hnb in Hpb.
  rewrite <- HB, <- HT, <- Hn in Hpb.
  set (m := B a0 * T a0) in *.
  set (n := num_processes a0) in *.
  set (ra := process_rank a0) in *. set (rb := process_rank b0) in *.
  assert (Hma : m * (ra + 1) <= m * n) by (apply Nat.mul_le_mono_l; lia).
  assert (Hmb : m * (rb + 1) <= m * n) by (apply Nat.mul_le_mono_l; lia).
  destruct (Nat.lt_trichotomy ja jb) as [Hj|[Hj|Hj]].
  - left. assert ((ja + 1) * (m * n) <= jb * (m * n))
      by (apply Nat.mul_le_mono_r; lia). lia.
  - subst jb. destruct (Nat.lt_ge_cases ra rb).
    + left. assert (m * (ra + 1) <= m * rb)
        by (apply Nat.mul_le_mono_l; lia). lia.
    + right. assert (m * (rb + 1) <= m * ra)
        by (apply Nat.mul_le_mono_l; lia). lia.
  - right. assert ((jb + 1) * (m * n) <= ja * (m * n))
      by (apply Nat.mul_le_mono_r; lia). lia.
Qed.

(** X5 for the two ranks of the two-process example after one call of
    rank 0 and none of rank 1. *)
Lemma ranks_read_disjoint_windows_witness : 4 + 1 * 2 <= 2 \/ 2 + 1 * 2 <= 4.
Proof.
  exact (ranks_read_disjoint_windows Example.np_load_short 1 0
           Example.loader_short (mk 1 2 1 2 ["long"; "short"] 0 [] 0)
           (mk 1 2 0 2 ["long"; "short"] 0 [0; 1; 2; 3; 4; 5; 6; 7; 8]%Z 4)
           (mk 1 2 1 2 ["long"; "short"] 0 [0; 1; 2; 3; 4; 5; 6; 7; 8]%Z 2)
           eq_refl eq_refl eq_refl ltac:(cbn; lia) ltac:(cbn; lia)
           ltac:(cbn; lia) eq_refl eq_refl).
Defined.

(** X6: when the resident shard ends before the window of [B*T + 1]
    tokens does, and the batch shape is not empty, [next_batch()] raises
    the [RuntimeError] of [view]: a short read is never padded, truncated
    or stitched with the next shard. *)
Theorem next_batch_short_window_raises
    (np_load : string -> result (list Z)) (self : t)
    (Hshape : 0 < B self * T self)
    (Hshort : length (tokens self)
              < current_position self + B self * T self + 1) :
  next_batch np_load self = Raise RuntimeError.
Proof.
  unfold next_batch, batch, Tensor.view.
  assert (Hlen : length (but_last (window self)) <> B self * T self).
  { rewrite length_but_last. unfold window. rewrite length_slice. lia. }
  by destruct (Nat.eqb_spec (length (but_last (window self)))
                 (B self * T self)).
Qed.

(** X6 on a shard of four tokens read by a feeder that needs five. *)
Lemma next_batch_short_window_witness :
  next_batch Example.np_load_short
    (mk 2 2 0 1 ["short"] 0 [10; 11; 12; 13]%Z 0) = Raise RuntimeError.
Proof.
  exact (next_batch_short_window_raises Example.np_load_short
           (mk 2 2 0 1 ["short"] 0 [10; 11; 12; 13]%Z 0)
           ltac:(cbn; lia) ltac:(cbn; lia)).
Defined.

End FeederMore.

(** ** More on the model's constructor and forward pass *)

Module ForwardMore.

Import GPT ForwardFacts.

Lemma forallb_out_of_range (num : nat) (l : list Z) (v : Z) :
  v ∈ l -> ~ (0 <= v < Z.of_nat num)%Z ->
  forallb (fun v => (0 <=? v)%Z && (v <? Z.of_nat num)%Z) l = false.
Proof.
  intros Hin Hv.
  assert (E : (0 <=? v)%Z && (v <? Z.of_nat num)%Z = false).
  { destruct (Z.leb_spec 0 v); [|done].
    by destruct (Z.ltb_spec v (Z.of_nat num)); [lia|]. }
  induction l as [|w l IH]; [by apply elem_of_nil in Hin|].
  cbn [forallb]. apply elem_of_cons in Hin as [<-|Hin].
  - by rewrite E.
  - rewrite (IH Hin). apply andb_false_r.
Qed.

Lemma embedding_out_of_range (num dim : nat) (idx : IntTensor) (v : Z) :
  v ∈ values idx -> ~ (0 <= v < Z.of_nat num)%Z ->
  embedding num dim idx = Raise IndexError.
Proof.
  intros Hin Hv. unfold embedding.
  by rewrite (forallb_out_of_range num _ v Hin Hv).
Qed.

Lemma position_lookup_arange (block_size width T : nat) :
  T <= block_size ->
  embedding block_size width (arange T) = Ok (dims (arange T) ++ [width]).
Proof. intros HT. by apply embedding_in_range, arange_in_range. Qed.

(** X8: the position look-up [wpe(arange(0, T))] succeeds exactly when
    [T <= block_size] and raises [IndexError] otherwise: the sequences the
    assertion of [forward] turns away are those that have no position
    embedding. *)
Theorem position_lookup_needs_block_size (block_size width T : nat) :
  embedding block_size width (arange T) =
    if T <=? block_size then Ok [T; width] else Raise IndexError.
Proof.
  destruct (Nat.leb_spec T block_size) as [Hle|Hgt].
  - by rewrite embedding_in_range by (by apply arange_in_range).
  - apply (embedding_out_of_range _ _ _ (Z.of_nat block_size)); [|lia].
    cbn [arange values]. apply list_elem_of_fmap.
    exists block_size. split; [done|]. apply elem_of_seq. lia.
Qed.

(** X9: on a constructed model of positive width, [MLP.forward],
    [CasualSelfAttention.forward] and [Block.forward] of [gpt_model.py]
    map a tensor of shape [(B, T, n_embd)] to one of the same shape for
    every [B] and [T]; those of [train_gpt2.py], whose attention applies
    the stored causal mask, do so for [T <= block_size]. *)
Theorem block_keeps_the_shape (config : GPTConfig) (B T : nat)
    (width : 0 < n_embd config)
    (constructed : attention_init config = Ok tt) :
  let x := [B; T; n_embd config] in
  mlp config x = Ok x /\
  attention config x = Ok x /\
  block config (attention config) x = Ok x /\
  (T <= block_size config ->
   attention_masked config x = Ok x /\
   block config (attention_masked config) x = Ok x).
Proof.
  intros x.
  pose proof (attention_shape config B T width constructed) as Ha.
  split; [apply mlp_shape|]. split; [done|].
  split; [by apply block_shape|].
  intros HT.
  pose proof (attention_masked_shape config B T width constructed HT) as Hm.
  split; [done|by apply block_shape].
Qed.

(** X9 on two heads of width 2, three tokens, block size 4. *)
Lemma block_keeps_the_shape_witness :
  block (mk_config 4 5 2 2 4) (attention (mk_config 4 5 2 2 4)) [1; 3; 4]
  = Ok [1; 3; 4].
Proof.
  exact (proj1 (proj2 (proj2
    (block_keeps_the_shape (mk_config 4 5 2 2 4) 1 3
       ltac:(cbn; lia) eq_refl)))).
Defined.

(** X10: the attention of [train_gpt2.py] cannot run on a sequence longer
    than the mask it stores: on a constructed model of positive width
    with [1 < block_size < T], [forward] of the attention raises the
    [RuntimeError] of the mask broadcast. *)
Theorem masked_attention_fails_beyond_block_size
    (config : GPTConfig) (B T : nat)
    (width : 0 < n_embd config)
    (constructed : attention_init config = Ok tt)
    (Hblock : 1 < block_size config)
    (Hlong : block_size config < T) :
  attention_masked config [B; T; n_embd config] = Raise RuntimeError.
Proof.
  unfold attention_masked.
  rewrite (heads_shape config B T width constructed).
  cbn [mbind result_bind].
  rewrite (scores_shape config B T width constructed).
  cbn [mbind result_bind].
  rewrite Nat.min_r by lia. unfold masked_fill, broadcast.
  cbn [reverse rev_append broadcast_rev].
  destruct (Nat.eqb_spec T (block_size config)); [lia|].
  destruct (Nat.eqb_spec T 1); [lia|].
  by destruct (Nat.eqb_spec (block_size config) 1); [lia|].
Qed.

(** X10 with block size 2 and three tokens. *)
Lemma masked_attention_fails_witness :
  attention_masked (mk_config 2 5 2 2 4) [1; 3; 4] = Raise RuntimeError.
Proof.
  exact (masked_attention_fails_beyond_block_size (mk_config 2 5 2 2 4) 1 3
           ltac:(cbn; lia) eq_refl ltac:(cbn; lia) ltac:(cbn; lia)).
Defined.

(** X11: a token id outside the vocabulary is an [IndexError]: for an
    input of shape [(B, T)] with [T <= block_size] that holds an id below
    0 or not below [vocab_size], both [forward] methods raise
    [IndexError], with or without targets. *)
Theorem forward_rejects_token_outside_vocabulary
    (config : GPTConfig) (idx : IntTensor) (B T : nat) (v : Z)
    (Hdims : dims idx = [B; T])
    (HT : T <= block_size config)
    (Hin : v ∈ values idx)
    (Hout : ~ (0 <= v < Z.of_nat (vocab_size config))%Z) :
  (forall targets, forward config idx targets = Raise IndexError) /\
  forward_train_gpt2 config idx = Raise IndexError.
Proof.
  assert (Hlog : forall attn, logits_of config attn idx = Raise IndexError).
  { intros attn. unfold logits_of. rewrite Hdims.
    cbn [unpack2 mbind result_bind].
    destruct (Nat.leb_spec T (block_size config)); [|lia].
    cbn [assert mbind result_bind].
    rewrite position_lookup_arange by done. cbn [mbind result_bind].
    by rewrite (embedding_out_of_range _ _ idx v Hin Hout). }
  split; [intros targets; unfold forward|unfold forward_train_gpt2];
    by rewrite Hlog.
Qed.

(** X11 on the token 5 with a vocabulary of 5. *)
Lemma forward_rejects_token_witness :
  forward_train_gpt2 (mk_config 4 5 2 2 4) (mk_int [1; 3] [0; 5; 2]%Z)
  = Raise IndexError.
Proof.
  refine (proj2 (forward_rejects_token_outside_vocabulary
            (mk_config 4 5 2 2 4) (mk_int [1; 3] [0; 5; 2]%Z) 1 3 5%Z
            eq_refl _ _ _)).
  - cbn. lia.
  - cbn. apply elem_of_cons. right. apply elem_of_cons. by left.
  - cbn. lia.
Defined.

End ForwardMore.

(** ** Pretrained configurations, parameter groups and cadence *)

Module ScriptMore.

Import GPT.

Lemma init_divisible (config : GPTConfig) (head_width : nat) :
  0 < n_head config -> n_embd config = head_width * n_head config ->
  init config = Ok tt.
Proof.
  intros Hh He. unfold init, attention_init, Num.mod_.
  destruct (n_layer config); [done|].
  destruct (Z.eqb_spec (Z.of_nat (n_head config)) 0); [lia|].
  cbn [mbind result_bind]. rewrite <- Nat2Z.inj_mod, He, Nat.Div0.mod_mul.
  done.
Qed.

(** X12: [from_pretrained] accepts exactly the four GPT-2 model types;
    for each of them the configuration has block size 1024, vocabulary
    50257, at least one layer and heads of width 64, and [GPT(config)]
    constructs; any other [model_type] raises [AssertionError]. *)
Theorem from_pretrained_config_cases (model_type : string) :
  (model_type ∈ Pretrained.model_types ->
   exists config,
     Pretrained.from_pretrained_config model_type = Ok config /\
     block_size config = 1024 /\ vocab_size config = 50257 /\
     n_embd config = 64 * n_head config /\ 0 < n_layer config /\
     init config = Ok tt) /\
  (model_type ∉ Pretrained.model_types ->
   Pretrained.from_pretrained_config model_type = Raise AssertionError).
Proof.
  split.
  - intros Hin. unfold Pretrained.from_pretrained_config.
    rewrite (bool_decide_eq_true_2 _ Hin). cbn [assert mbind result_bind].
    assert (Hcfg : exists n_layer n_head,
               Pretrained.config_args model_type
               = (n_layer, n_head, 64 * n_head) /\
               0 < n_layer /\ 0 < n_head).
    { unfold Pretrained.model_types in Hin.
      rewrite !elem_of_cons, elem_of_nil in Hin.
      destruct Hin as [->|[->|[->|[->|[]]]]].
      - exists 12, 12. split; [reflexivity|lia].
      - exists 24, 16. split; [reflexivity|lia].
      - exists 36, 20. split; [reflexivity|lia].
      - exists 48, 25. split; [reflexivity|lia]. }
    destruct Hcfg as (nl & nh & -> & Hl & Hh).
    assert (Hinit : init (mk_config 1024 50257 nl nh (64 * nh)) = Ok tt)
      by (by apply (init_divisible _ 64)).
    rewrite Hinit. cbn [mbind result_bind].
    eexists. split; [reflexivity|]. cbn [block_size vocab_size n_embd n_head
                                         n_layer].
    repeat split; try reflexivity; done.
  - intros Hnot. unfold Pretrained.from_pretrained_config.
    by rewrite bool_decide_eq_false_2.
Qed.

Import Optimizer.

(** X13: [configure_optimizers] hands [AdamW] two groups: the trainable
    parameters of dimension at least 2 with the given weight decay and
    the trainable parameters of dimension below 2 with weight decay 0.
    Together the groups are a rearrangement of the trainable parameters
    (none lost, none twice, frozen ones in neither), the two counts add up
    to the number of trainable elements, and the fused path is used only
    when it is available and the device name contains ["cuda"]. *)
Theorem configure_optimizers_partitions (named_parameters : list parameter)
    (weight_decay : R) (device : string) (fused_available : bool) :
  let c := configure_optimizers named_parameters weight_decay device
             fused_available in
  let trainable := filter (fun p => requires_grad p = true) named_parameters in
  exists decay nodecay,
    optim_groups c = [mk_group decay weight_decay; mk_group nodecay 0%R] /\
    decay ++ nodecay ≡ₚ trainable /\
    (forall p, p ∈ decay <->
               p ∈ named_parameters /\ requires_grad p = true /\ 2 <= dim p) /\
    (forall p, p ∈ nodecay <->
               p ∈ named_parameters /\ requires_grad p = true /\ dim p < 2) /\
    num_decay_params c + num_nodecay_params c
    = sum_list (numel <$> trainable) /\
    (use_fused c = true <->
     fused_available = true /\ DataLoaderLite.contains "cuda" device = true).
Proof.
  intros c trainable.
  exists (filter (fun p => 2 <= dim p) trainable),
         (filter (fun p => dim p < 2) trainable).
  assert (Hperm : filter (fun p => 2 <= dim p) trainable
                  ++ filter (fun p => dim p < 2) trainable ≡ₚ trainable).
  { rewrite (list_filter_iff (fun p => dim p < 2) (fun p => ~ 2 <= dim p))
      by (intros p; lia).
    apply filter_app_complement. }
  split; [done|]. split; [done|].
  split.
  { intros p. unfold trainable. rewrite !list_elem_of_filter. tauto. }
  split.
  { intros p. unfold trainable. rewrite !list_elem_of_filter. tauto. }
  split.
  { unfold c, configure_optimizers. cbn [num_decay_params num_nodecay_params].
    fold trainable. rewrite <- sum_list_with_app, <- fmap_app.
    by rewrite Hperm. }
  unfold c, configure_optimizers. cbn [use_fused].
  rewrite andb_true_iff. done.
Qed.

Import Loop.

(** X14: the guards of the training loop.  The guard of the checkpoint
    write holds exactly for the master process at the positive steps
    that are multiples of 5000 or the last step -- the surrounding
    validation cadence of 250 steps suppresses none of them; whenever the
    guard of the sampling block holds, so do the guards of the validation
    and of the benchmark block before it; and at step 0 of a run of more
    than one step the validation guard holds but neither the checkpoint
    nor the sampling guard. *)
Theorem checkpoint_and_sampling_cadence (max_steps : Z)
    (master_process use_compile : bool) (step : Z) :
  saves_checkpoint max_steps master_process step
  = master_process &&
    ((0 <? step)%Z && ((step mod 5000 =? 0)%Z || last_step max_steps step)) /\
  (samples max_steps use_compile step = true ->
   validates max_steps step = true /\
   scores_benchmark max_steps use_compile step = true) /\
  (max_steps <> 1%Z ->
   validates max_steps 0 = true /\
   saves_checkpoint max_steps master_process 0 = false /\
   samples max_steps use_compile 0 = false).
Proof.
  assert (Hdiv : (step mod 5000 =? 0)%Z = true -> (step mod 250 =? 0)%Z = true).
  { rewrite !Z.eqb_eq. intros H5.
    apply Z.mod_divide in H5; [|lia]. apply Z.mod_divide; [lia|].
    apply (Z.divide_trans _ 5000); [by exists 20%Z|done]. }
  split.
  - unfold saves_checkpoint, validates.
    destruct master_process, (0 <? step)%Z, (last_step max_steps step);
      rewrite ?orb_true_r, ?orb_false_r, ?andb_true_r, ?andb_false_r;
      try done.
    destruct (step mod 5000 =? 0)%Z eqn:H5; [|by rewrite andb_false_r].
    by rewrite (Hdiv eq_refl).
  - split.
    + unfold samples, validates, scores_benchmark.
      destruct (last_step max_steps step), (step mod 250 =? 0)%Z,
        (0 <? step)%Z, use_compile; cbn; done.
    + intros Hmax. unfold saves_checkpoint, samples, validates, last_step.
      destruct (Z.eqb_spec 0 (max_steps - 1)); [lia|].
      cbn. by rewrite ?andb_false_r.
Qed.

End ScriptMore.

(** ** More on the benchmark scorer *)

Module ScorerMore.

Import HellaSwag ScorerFacts.
Local Open Scope R_scope.

Lemma Rsum_exp_nonneg (scores : list R) : 0 <= Num.Rsum (exp <$> scores).
Proof.
  unfold Num.Rsum. induction scores as [|s scores IH]; cbn [fmap list_fmap foldr].
  - lra.
  - pose proof (exp_pos s). lra.
Qed.

Lemma exp_le_Rsum (scores : list R) (k : nat) :
  (k < length scores)%nat ->
  exp (nth k scores 0) <= Num.Rsum (exp <$> scores).
Proof.
  revert k. induction scores as [|s scores IH]; intros k Hk; [cbn in Hk; lia|].
  change (Num.Rsum (exp <$> s :: scores))
    with (exp s + Num.Rsum (exp <$> scores)).
  destruct k as [|k]; cbn [nth].
  - pose proof (Rsum_exp_nonneg scores). lra.
  - cbn [length] in Hk. specialize (IH k ltac:(lia)).
    pose proof (exp_pos s). lra.
Qed.

Lemma ln_monotone (x y : R) : 0 < x -> x <= y -> ln x <= ln y.
Proof.
  intros Hx [Hlt | ->]; [|lra]. left. by apply ln_increasing.
Qed.

Lemma nll_nonneg (scores : list R) (k : nat) :
  (k < length scores)%nat -> 0 <= nll scores k.
Proof.
  intros Hk. unfold nll.
  pose proof (exp_le_Rsum scores k Hk) as Hle.
  pose proof (ln_monotone _ _ (exp_pos (nth k scores 0)) Hle) as Hln.
  rewrite ln_exp in Hln. lra.
Qed.

Lemma sum_where_masked_nonneg (losses : list R) (m : list Z) :
  Forall (fun l => 0 <= l) losses -> 0 <= sum_where_masked losses m.
Proof.
  intros Hl. revert m. induction Hl as [|l losses Hl0 _ IH]; intros m.
  - cbn. lra.
  - destruct m as [|b m]; cbn [sum_where_masked]; [lra|].
    specialize (IH m). destruct (b =? 1)%Z; lra.
Qed.

Lemma position_losses_nonneg (toks : list Z) (scores : list (list R)) :
  Forall2 valid_target (but_last scores) (from_1 toks) ->
  Forall (fun l => 0 <= l) (position_losses toks scores).
Proof.
  unfold position_losses.
  induction 1 as [|s tok ss tks [H0 H1] _ IH]; cbn [zip_with]; constructor.
  - apply nll_nonneg. lia.
  - done.
Qed.

(** X15: on a rendered example every per-row average that
    [get_most_likely_row] compares is non-negative (over the reals): each
    scored position contributes a cross-entropy that is at least 0. *)
Theorem average_losses_are_nonnegative
    (tokens mask : list (list Z)) (logits : list (list (list R)))
    (Hexample : rendered tokens mask logits) :
  exists avgs, avg_loss tokens mask logits = Ok avgs /\
               length avgs = length tokens /\
               Forall (fun a => 0 <= a) avgs.
Proof.
  exists (spec_average_losses tokens mask logits).
  split; [by apply avg_loss_refines|].
  destruct Hexample as [_ Hm Hl _ Hcls _ Hne].
  split.
  { unfold spec_average_losses. rewrite length_fmap, !length_zip_with. lia. }
  unfold spec_average_losses. apply Forall_fmap, Forall_forall.
  intros [[toks msk] scores] Hin. cbn.
  apply list_elem_of_lookup_1 in Hin as [i Hi].
  apply lookup_zip_with_Some in Hi as (p & scores' & Heq & Hp & Hs).
  apply lookup_zip_with_Some in Hp as (toks' & msk' & -> & Ht & Hk).
  injection Heq as -> -> ->.
  pose proof (Forall2_lookup_lr _ _ _ _ _ _ Hcls Ht Hs) as Hvalid.
  pose proof (Forall_lookup_1 _ _ _ _ Hne Hk) as Hcount. cbn in Hcount.
  unfold spec_average_loss.
  apply Rmult_le_pos.
  - by apply sum_where_masked_nonneg, position_losses_nonneg.
  - left. apply Rinv_0_lt_compat. by apply lt_0_INR.
Qed.

(** X15 on the two-candidate example. *)
Lemma average_losses_are_nonnegative_witness :
  exists avgs,
    avg_loss [[0; 1]; [0; 0]]%Z [[0; 1]; [0; 1]]%Z
      [[[1; 0]; [0; 0]]; [[1; 0]; [0; 0]]] = Ok avgs /\
    length avgs = 2%nat /\ Forall (fun a => 0 <= a) avgs.
Proof.
  apply (average_losses_are_nonnegative [[0; 1]; [0; 0]]%Z
           [[0; 1]; [0; 1]]%Z [[[1; 0]; [0; 0]]; [[1; 0]; [0; 0]]]).
  constructor.
  - done.
  - done.
  - done.
  - exists 2%nat. repeat constructor.
  - repeat constructor; cbn; lia.
  - repeat constructor; by right || by left.
  - repeat (apply Forall_cons; split); try apply Forall_nil; vm_compute; lia.
Defined.

End ScorerMore.

(** ** The sampling loop and the benchmark striping *)

Module SamplerMore.

Import GPT ForwardFacts Sampler.

Lemma decoded_seq (max_length : nat) (xgen : list (list Z)) (k : nat) :
  decoded max_length xgen (seq k (length xgen - k))
  = Ok (take max_length <$> drop k xgen).
Proof.
  remember (length xgen - k) as n eqn:Hn. revert k Hn.
  induction n as [|n IH]; intros k Hn.
  - cbn [seq decoded]. by rewrite drop_ge by lia.
  - cbn [seq decoded].
    destruct (lookup_lt_is_Some_2 xgen k ltac:(lia)) as [row Hrow].
    rewrite Hrow, (IH (S k)) by lia. cbn [mbind result_bind].
    by rewrite (drop_S _ _ _ Hrow).
Qed.

Section Generate.

Variable config : GPTConfig.
Variable sample_column : list (list Z) -> list Z.
Variable max_length : nat.
Variable num_return_sequences : nat.
Variable tokens : list Z.

Local Abbreviation in_vocab :=
  (fun v : Z => (0 <= v < Z.of_nat (vocab_size config))%Z).

(** What the loop keeps true of [xgen] at width [w]. *)
Local Abbreviation well_formed w xgen :=
  (length xgen = num_return_sequences /\
   Forall (fun row => length row = w /\ tokens `prefix_of` row /\
                      Forall in_vocab row) xgen).

Hypothesis constructed : init config = Ok tt.
Hypothesis width : 0 < n_embd config.
Hypothesis fits_block : max_length <= block_size config.
Hypothesis top_50 : 50 <= vocab_size config.
Hypothesis some_sequence : 0 < num_return_sequences.
Hypothesis sampled_in_vocab :
  forall xgen, length (sample_column xgen) = length xgen /\
               Forall in_vocab (sample_column xgen).

Lemma size1_well_formed (w : nat) (xgen : list (list Z)) :
  well_formed w xgen -> size1 xgen = w.
Proof using some_sequence.
  intros [Hlen Hrows]. destruct xgen as [|row xgen].
  - cbn in Hlen. clear - Hlen some_sequence. lia.
  - apply Forall_cons in Hrows as [(Hw & _) _]. exact Hw.
Qed.

Lemma loop_body_well_formed (w : nat) (xgen : list (list Z)) :
  well_formed w xgen -> 0 < w < max_length ->
  exists xgen', loop_body config sample_column xgen = Ok xgen' /\
                well_formed (S w) xgen'.
Proof using constructed width fits_block top_50 some_sequence sampled_in_vocab.
  intros Hwf Hw. pose proof (size1_well_formed w xgen Hwf) as Hsize.
  destruct Hwf as [Hlen Hrows].
  destruct (sampled_in_vocab xgen) as [Hcol Hvocab].
  unfold loop_body, forward. rewrite Hsize.
  rewrite (logits_of_shape config (attention config) _ (length xgen) w);
    try done.
  - cbn [mbind result_bind last_position topk].
    destruct (Nat.eqb_spec w 0); [lia|]. cbn [mbind result_bind topk].
    destruct (Nat.ltb_spec (vocab_size config) 50); [lia|].
    cbn [mbind result_bind]. unfold cat_column.
    rewrite Hcol, Nat.eqb_refl. eexists. split; [done|].
    split; [rewrite length_zip_with; lia|].
    apply Forall_forall. intros row' [i Hi]%list_elem_of_lookup_1.
    apply lookup_zip_with_Some in Hi as (row & tok & -> & Hrow & Htok).
    destruct (Forall_lookup_1 _ _ _ _ Hrows Hrow) as (Hl & Hp & Hv).
    split; [rewrite length_app; cbn; lia|].
    split; [by apply prefix_app_r|].
    apply Forall_app. split; [done|].
    constructor; [|constructor]. by apply (Forall_lookup_1 _ _ _ _ Hvocab Htok).
  - lia.
  - cbn [values]. apply Forall_concat.
    eapply Forall_impl; [exact Hrows|]. by intros row (_ & _ & Hv).
  - intros Ha. by apply attention_shape.
Qed.

Lemma while_loop_well_formed (fuel w : nat) (xgen : list (list Z)) :
  well_formed w xgen -> 0 < w -> max_length - w <= fuel ->
  exists xgen', while_loop config sample_column max_length fuel xgen
                = Some (Ok xgen') /\
                well_formed (Nat.max w max_length) xgen'.
Proof using constructed width fits_block top_50 some_sequence sampled_in_vocab.
  revert w xgen. induction fuel as [|fuel IH]; intros w xgen Hwf Hpos Hfuel.
  - cbn [while_loop]. rewrite (size1_well_formed w xgen Hwf).
    destruct (Nat.ltb_spec w max_length); [lia|].
    exists xgen. by rewrite Nat.max_l by lia.
  - cbn [while_loop]. rewrite (size1_well_formed w xgen Hwf).
    destruct (Nat.ltb_spec w max_length) as [Hlt|Hge].
    + destruct (loop_body_well_formed w xgen Hwf ltac:(lia)) as (x1 & -> & Hwf1).
      destruct (IH (S w) x1 Hwf1 ltac:(lia) ltac:(lia)) as (x2 & Hloop & Hwf2).
      exists x2. split; [done|].
      by replace (Nat.max w max_length) with (Nat.max (S w) max_length) by lia.
    + exists xgen. by rewrite Nat.max_l by lia.
Qed.

End Generate.

(** X17: the sampling loop on a constructed model of positive width
    with at least 50 tokens in the vocabulary, [max_length <= block_size],
    at least one sequence, a non-empty prompt inside the vocabulary and
    draws that are token ids of the vocabulary (one per sequence): the
    loop stops after at most [max_length - len(prompt)] iterations, none
    of which raises; it leaves [num_return_sequences] sequences of length
    [max(len(prompt), max_length)], each starting with the prompt and
    holding only ids of the vocabulary; and the lists handed to the
    decoder are these sequences cut to exactly [max_length] tokens. *)
Theorem generate_extends_the_prompt
    (config : GPTConfig) (sample_column : list (list Z) -> list Z)
    (max_length num_return_sequences : nat) (tokens : list Z)
    (constructed : init config = Ok tt)
    (width : 0 < n_embd config)
    (fits_block : max_length <= block_size config)
    (top_50 : 50 <= vocab_size config)
    (some_sequence : 0 < num_return_sequences)
    (some_prompt : 0 < length tokens)
    (prompt_in_vocab :
       Forall (fun v => (0 <= v < Z.of_nat (vocab_size config))%Z) tokens)
    (sampled_in_vocab :
       forall xgen,
         length (sample_column xgen) = length xgen /\
         Forall (fun v => (0 <= v < Z.of_nat (vocab_size config))%Z)
                (sample_column xgen)) :
  exists xgen,
    generate config sample_column max_length num_return_sequences tokens
             (max_length - length tokens) = Some (Ok xgen) /\
    length xgen = num_return_sequences /\
    Forall (fun row =>
              length row = Nat.max (length tokens) max_length /\
              tokens `prefix_of` row /\
              Forall (fun v => (0 <= v < Z.of_nat (vocab_size config))%Z) row)
           xgen /\
    printed max_length num_return_sequences xgen
    = Ok (take max_length <$> xgen) /\
    Forall (fun row => length row = max_length) (take max_length <$> xgen).
Proof.
  unfold generate, repeat_prompt.
  destruct (while_loop_well_formed config sample_column max_length
              num_return_sequences tokens constructed width fits_block
              top_50 some_sequence sampled_in_vocab
              (max_length - length tokens) (length tokens)
              (replicate num_return_sequences tokens))
    as (xgen & Hloop & Hlen & Hrows).
  - split; [apply length_replicate|]. by apply Forall_replicate.
  - done.
  - lia.
  - exists xgen. split; [done|]. split; [done|]. split; [done|]. split.
    + unfold printed. rewrite <- Hlen.
      replace (length xgen) with (length xgen - 0) at 1 by lia.
      by rewrite decoded_seq, drop_0.
    + apply Forall_fmap. eapply Forall_impl; [exact Hrows|].
      intros row (Hrow & _ & _). cbn. rewrite length_take. lia.
Qed.

(** X17 with two sequences, a prompt of two tokens, [max_length] 4, a
    vocabulary of 50 tokens and a sampler that always draws token 1. *)
Lemma generate_extends_the_prompt_witness :
  exists xgen,
    generate (mk_config 4 50 2 2 4) (fun xgen => (fun _ => 1%Z) <$> xgen)
             4 2 [3; 0]%Z 2 = Some (Ok xgen) /\
    length xgen = 2.
Proof.
  destruct (generate_extends_the_prompt (mk_config 4 50 2 2 4)
              (fun xgen => (fun _ => 1%Z) <$> xgen) 4 2 [3; 0]%Z)
    as (xgen & Hgen & Hlen & _).
  - reflexivity.
  - cbn. lia.
  - cbn. lia.
  - cbn. lia.
  - lia.
  - cbn. lia.
  - repeat constructor; cbn; lia.
  - intros xgen. split; [apply length_fmap|].
    apply Forall_fmap, Forall_forall. intros row Hrow. cbn. lia.
  - exists xgen. split; assumption.
Defined.

End SamplerMore.

Module StripingMore.

Import Striping.

Lemma takes_pos (ws rank i : Z) :
  (0 < ws)%Z -> takes ws rank i = Ok (bool_decide (i mod ws = rank)%Z).
Proof.
  intros Hws. unfold takes, Num.mod_.
  destruct (Z.eqb_spec ws 0); [lia|]. cbn [mbind result_bind].
  rewrite negb_involutive. f_equal.
  destruct (Z.eqb_spec (i mod ws) rank) as [Heq|Hne].
  - by rewrite bool_decide_eq_true_2.
  - by rewrite bool_decide_eq_false_2.
Qed.

Lemma elem_of_range (n i : Z) : i ∈ Num.range n <-> (0 <= i < n)%Z.
Proof.
  unfold Num.range. rewrite list_elem_of_fmap. split.
  - intros (k & -> & Hk%elem_of_seq). lia.
  - intros Hi. exists (Z.to_nat i). split; [lia|]. apply elem_of_seq. lia.
Qed.

(** X18: in the benchmark loop, with a positive number of workers,
    every example index gets past the striping guard on exactly one
    rank, and that rank is one of [0 .. ddp_world_size - 1], also for a
    negative index: it is the index modulo the number of workers. *)
Theorem every_example_is_taken_by_one_rank (ddp_world_size : Z)
    (Hws : (0 < ddp_world_size)%Z) :
  forall i,
    exists rank,
      rank ∈ Num.range ddp_world_size /\
      rank = (i mod ddp_world_size)%Z /\
      takes ddp_world_size rank i = Ok true /\
      forall rank', takes ddp_world_size rank' i = Ok true -> rank' = rank.
Proof.
  intros i. exists (i mod ddp_world_size)%Z.
  split; [apply elem_of_range; by apply Z.mod_pos_bound|].
  split; [done|]. rewrite takes_pos by done.
  split; [by rewrite bool_decide_eq_true_2|].
  intros rank'. rewrite takes_pos by done.
  by intros [= Hb%bool_decide_eq_true_1].
Qed.

(** X18 with 8 workers and example 13. *)
Lemma every_example_is_taken_witness :
  exists rank, rank ∈ Num.range 8 /\ takes 8 rank 13 = Ok true.
Proof.
  destruct (every_example_is_taken_by_one_rank 8 ltac:(lia) 13%Z)
    as (rank & Hin & _ & Htakes & _).
  exists rank. split; assumption.
Defined.

End StripingMore.
